(** * JustPressThis.py: order-form batch processor

    A shallow embedding of [src/JustPressThis.py] and the properties of its
    line-item parser, page fetcher and batch processor.

    Python values are modelled as the code has them:
    - a [str] is a sequence of Unicode code points ([pystr]);
    - an [int] is a [Z];
    - a function that may raise returns a [result];
    - the accumulators [products], [bookkeeping_data] and
      [incorrect_entries] are lists of rows, a row being a Python list of
      values ([row]). *)

From Stdlib Require Import String Ascii.
From Stdlib Require Import List NArith ZArith Lia Bool.
From Stdlib Require Import Sorting.Sorted Sorting.Permutation.
From Stdlib Require DecimalZ.
Import ListNotations.

(** ** Python strings *)

(** A Python [str]: its code points, in order. *)
Definition pystr := list N.

Module Utf8.
(** The source file is UTF-8; literals are written as Rocq strings (bytes)
    and decoded to code points. *)
Definition cont (b : N) : N := N.land b 63.

Fixpoint decode (bs : list N) : pystr :=
  match bs with
  | [] => []
  | b :: tl =>
    if (b <? 128)%N then b :: decode tl
    else if (b <? 224)%N then
      match tl with
      | b1 :: tl1 => (N.land b 31 * 64 + cont b1)%N :: decode tl1
      | _ => []
      end
    else if (b <? 240)%N then
      match tl with
      | b1 :: b2 :: tl2 =>
          (N.land b 15 * 4096 + cont b1 * 64 + cont b2)%N :: decode tl2
      | _ => []
      end
    else
      match tl with
      | b1 :: b2 :: b3 :: tl3 =>
          (N.land b 7 * 262144 + cont b1 * 4096 + cont b2 * 64 + cont b3)%N
            :: decode tl3
      | _ => []
      end
  end.
End Utf8.

(** [u "..."] is the Python literal ["..."]. *)
Definition u (s : string) : pystr :=
  Utf8.decode (map N_of_ascii (list_ascii_of_string s)).

Module Py.

(** [s.startswith(p)] *)
Fixpoint startswith (p s : pystr) : bool :=
  match p, s with
  | [], _ => true
  | _ :: _, [] => false
  | a :: p', b :: s' => (a =? b)%N && startswith p' s'
  end.

(** [s.find(sub)]: index of the leftmost occurrence. *)
Fixpoint find (sub s : pystr) : option nat :=
  if startswith sub s then Some 0
  else match s with
       | [] => None
       | _ :: s' => option_map S (find sub s')
       end.

(** [sub in s] *)
Definition contains (sub s : pystr) : bool :=
  match find sub s with Some _ => true | None => false end.

(** [s.split(sep)] for a non-empty [sep] (every separator of the program is
    a non-empty literal): cut at the leftmost occurrence, continue after
    it.  [fuel] bounds the number of cuts by the length of [s]. *)
Fixpoint split_fuel (fuel : nat) (sep s : pystr) : list pystr :=
  match fuel with
  | O => [s]
  | S fuel' =>
    match find sep s with
    | None => [s]
    | Some i => firstn i s :: split_fuel fuel' sep (skipn (i + length sep) s)
    end
  end.

Definition split (sep s : pystr) : list pystr :=
  split_fuel (length s) sep s.

(** [str.isspace] on one code point: the characters [str.strip()]
    removes. *)
Definition isspace (c : N) : bool :=
  ((9 <=? c) && (c <=? 13) || (28 <=? c) && (c <=? 32)
   || (c =? 133) || (c =? 160) || (c =? 5760)
   || (8192 <=? c) && (c <=? 8202)
   || (c =? 8232) || (c =? 8233) || (c =? 8239) || (c =? 8287)
   || (c =? 12288))%N.

Fixpoint lstrip (s : pystr) : pystr :=
  match s with
  | c :: s' => if isspace c then lstrip s' else s
  | [] => []
  end.

Definition rstrip (s : pystr) : pystr := rev (lstrip (rev s)).

(** [s.strip()] *)
Definition strip (s : pystr) : pystr := rstrip (lstrip s).

(** [a == b] on two [str]. *)
Fixpoint str_eq (a b : pystr) : bool :=
  match a, b with
  | [], [] => true
  | x :: a', y :: b' => (x =? y)%N && str_eq a' b'
  | _, _ => false
  end.

(** [l[k]]: [None] stands for [IndexError]. *)
Definition index {A} (l : list A) (k : nat) : option A := nth_error l k.

(** Lexicographic comparison of two [str] by code point: [a <= b]. *)
Fixpoint str_le (a b : pystr) : bool :=
  match a, b with
  | [], _ => true
  | _ :: _, [] => false
  | x :: a', y :: b' =>
      if (x <? y)%N then true
      else if (y <? x)%N then false
      else str_le a' b'
  end.

(** *** [int(s)] for a [str]

    CPython first maps the string to ASCII: code points below 127 are
    kept, other white space becomes a blank, other decimal digits become
    ['0'..'9'] and anything else invalidates the literal.  The table of
    decimal digits outside ASCII is the Unicode database's; it is the
    parameter [decimal]. *)
Fixpoint to_ascii (decimal : N -> option N) (s : pystr) : option pystr :=
  match s with
  | [] => Some []
  | c :: s' =>
    if (c <? 127)%N then option_map (cons c) (to_ascii decimal s')
    else if isspace c then option_map (cons 32%N) (to_ascii decimal s')
    else match decimal c with
         | Some d => option_map (cons (48 + d)%N) (to_ascii decimal s')
         | None => None
         end
  end.

(** White space of the integer parser: blank, tab, newline, vertical tab,
    form feed, carriage return. *)
Definition c_isspace (c : N) : bool :=
  ((9 <=? c) && (c <=? 13) || (c =? 32))%N.

Fixpoint skip_space (s : pystr) : pystr :=
  match s with
  | c :: s' => if c_isspace c then skip_space s' else s
  | [] => []
  end.

Definition is_digit (c : N) : bool := ((48 <=? c) && (c <=? 57))%N.

Inductive scan_state := AtStart | AfterDigit | AfterUnderscore.

(** Digits with single underscores between them; returns the digits and
    what follows them. *)
Fixpoint scan_digits (prev : scan_state) (s : pystr)
  : option (pystr * pystr) :=
  match s with
  | c :: s' =>
    if is_digit c then
      match scan_digits AfterDigit s' with
      | Some (ds, rest) => Some (c :: ds, rest)
      | None => None
      end
    else if (c =? 95)%N then
      match prev with
      | AfterDigit => scan_digits AfterUnderscore s'
      | _ => None
      end
    else match prev with
         | AfterUnderscore => None
         | _ => Some ([], s)
         end
  | [] => match prev with
          | AfterUnderscore => None
          | _ => Some ([], [])
          end
  end.

Fixpoint uint_of_digits (ds : pystr) : Decimal.uint :=
  match ds with
  | [] => Decimal.Nil
  | c :: ds' =>
    let r := uint_of_digits ds' in
    match (c - 48)%N with
    | 0 => Decimal.D0 r | 1 => Decimal.D1 r | 2 => Decimal.D2 r
    | 3 => Decimal.D3 r | 4 => Decimal.D4 r | 5 => Decimal.D5 r
    | 6 => Decimal.D6 r | 7 => Decimal.D7 r | 8 => Decimal.D8 r
    | _ => Decimal.D9 r
    end%N
  end.

(** The default limit on the number of digits of an integer literal read
    from a string ([sys.int_info.default_max_str_digits]). *)
Definition max_str_digits : nat := 4300.

(** [int(s)]; [None] stands for [ValueError]. *)
Definition int (decimal : N -> option N) (s : pystr) : option Z :=
  match to_ascii decimal s with
  | None => None
  | Some a =>
    let a1 := skip_space a in
    let '(negative, a2) :=
      match a1 with
      | c :: t =>
        if (c =? 43)%N then (false, t)        (* '+' *)
        else if (c =? 45)%N then (true, t)    (* '-' *)
        else (false, a1)
      | [] => (false, a1)
      end in
    match scan_digits AtStart a2 with
    | None => None
    | Some (ds, rest) =>
      match ds with
      | [] => None
      | _ :: _ =>
        if (max_str_digits <? length ds)%nat then None
        else if forallb c_isspace rest then
          let n := Z.of_N (N.of_uint (uint_of_digits ds)) in
          Some (if negative then (- n)%Z else n)
        else None
      end
    end
  end.

Fixpoint digits_of_uint (d : Decimal.uint) : pystr :=
  (match d with
   | Decimal.Nil => []
   | Decimal.D0 r => 48 :: digits_of_uint r
   | Decimal.D1 r => 49 :: digits_of_uint r
   | Decimal.D2 r => 50 :: digits_of_uint r
   | Decimal.D3 r => 51 :: digits_of_uint r
   | Decimal.D4 r => 52 :: digits_of_uint r
   | Decimal.D5 r => 53 :: digits_of_uint r
   | Decimal.D6 r => 54 :: digits_of_uint r
   | Decimal.D7 r => 55 :: digits_of_uint r
   | Decimal.D8 r => 56 :: digits_of_uint r
   | Decimal.D9 r => 57 :: digits_of_uint r
   end)%N.

(** The decimal digits of the absolute value of [z]. *)
Definition digits (z : Z) : pystr := digits_of_uint (N.to_uint (Z.abs_N z)).

(** [str(z)] for an [int]. *)
Definition str_of_int (z : Z) : pystr :=
  if (z <? 0)%Z then 45%N :: digits z else digits z.

End Py.

(** ** Values, rows and exceptions *)

(** A value stored in a row of a table. *)
Inductive pyval :=
| VStr (s : pystr)
| VInt (z : Z)
| VNaN
| VNone.

(** A row: a Python list of values. *)
Definition row := list pyval.

Inductive value_error :=
| InvalidLiteral          (* int() could not read its argument *)
| LinkNotHttp             (* "Link does not start with http" *)
| InvalidProductData      (* "Invalid product data" *)
| FetchFailed             (* "Failed to fetch reference number or price" *)
| ColumnsMismatch         (* DataFrame: rows wider or narrower than columns *)
| CannotMask.             (* boolean indexing with a mask that holds NaN *)

(** The exceptions of class [Exception] the program can meet. *)
Inductive exn :=
| PlaywrightError
| TimeoutError
| AttributeError
| IndexError
| TypeError
| ValueError (e : value_error)
| OSError                 (* the operating system refuses a path *)
| FileNotFoundError       (* [os.makedirs] of the empty name *)
| IllegalCharacterError.  (* a cell text the spreadsheet writer refuses *)

Inductive result (A : Type) :=
| Ok (a : A)
| Raise (e : exn).
Arguments Ok {A} a.
Arguments Raise {A} e.

(** A cell of the frame [pd.read_csv] returns: text, or NaN where the file
    has an empty field.  This is a frame whose columns hold text; a column
    that [pd.read_csv] reads as numbers (every field of it a number) is not
    covered. *)
Inductive cell :=
| Text (s : pystr)
| NaN.

Definition cell_value (c : cell) : pyval :=
  match c with
  | Text s => VStr s
  | NaN => VNaN
  end.

(** [str(c)] as an f-string formats it. *)
Definition cell_str (c : cell) : pystr :=
  match c with
  | Text s => s
  | NaN => u "nan"
  end.

(** An Order Record: one row of the input frame. *)
Record order_record := {
  customer : cell;          (* 訂貨者名稱 *)
  phone : cell;             (* 電話號碼 *)
  submission_date : cell;   (* Submission Date *)
  item_blob : cell          (* 商品訊息 *)
}.

(** ** Logging *)

Inductive level := INFO | WARNING | ERROR.

(** What a log call records; the fields are the values its f-string
    formats. *)
Inductive message :=
| FetchNotFound (url : pystr)
| FetchSucceeded (url reference price : pystr)
| FetchException (url : pystr) (e : exn)
| InvalidLinkFormat (index : nat) (link : pystr)
| MissingOrInvalidData (index : nat) (name link : pystr) (quantity : Z)
| FetchDetailsFailed (index : nat) (reference price : option pystr)
| ErrorAtIndex (index : nat) (customer : cell) (e : exn).

Definition log_record : Type := level * message.

(** ** The rendered page, as the fetcher observes it *)

(** A DOM element handle: [inner_text()] returns its text or raises. *)
Record element := { inner_text : result pystr }.

(** The outcome of each Playwright call [fetch_product_details] makes, in
    program order.  A call that raises is [Raise e]. *)
Record page := {
  start : result unit;              (* sync_playwright().__enter__() *)
  launch : result unit;             (* playwright.chromium.launch *)
  new_page : result unit;           (* browser.new_page *)
  goto : result unit;               (* page.goto(url) *)
  wait_reference : result unit;     (* wait_for_selector, raises on timeout *)
  wait_price : result unit;
  reference_test : result (option element); (* query_selector, condition *)
  reference_get : result (option element);  (* query_selector, value *)
  price_test : result (option element);
  price_get : result (option element);
  close : result unit               (* browser.close() *)
}.

(** What the program is run against, none of it code of the program:
    - the Unicode table of decimal digits that [int] consults;
    - the page met by the [n]-th fetch at a URL;
    - whether Playwright, when its [with] block is left, takes down a browser
      that is still open;
    - the exception [os.makedirs] raises for a name, if any (a name the
      system refuses, a missing permission);
    - the exception the spreadsheet writer behind [to_excel] raises for a
      path and the rows of a table, if any (a cell text its engine refuses, a
      file it cannot open). *)
Record env := {
  decimal : N -> option N;
  web : nat -> pystr -> page;
  exit_closes_browser : bool;
  makedirs_error : pystr -> option exn;
  writer_error : pystr -> list row -> option exn
}.

(** ** Program state *)

(** What happens to the rendering context, in order. *)
Inductive event :=
| PlaywrightStarted     (* the [with] block is entered *)
| BrowserLaunched       (* chromium.launch returned *)
| BrowserClosed         (* browser.close() returned *)
| PlaywrightStopped.    (* the [with] block is left *)

Record state := {
  products : list row;
  bookkeeping_data : list row;
  incorrect_entries : list row;
  log : list log_record;
  fetches : nat;               (* calls of fetch_product_details so far *)
  playwright_running : bool;
  browser_open : bool;
  events : list event
}.

Definition init : state :=
  {| products := []; bookkeeping_data := []; incorrect_entries := [];
     log := []; fetches := 0; playwright_running := false;
     browser_open := false; events := [] |}.

Definition logging (lv : level) (m : message) (st : state) : state :=
  {| products := products st; bookkeeping_data := bookkeeping_data st;
     incorrect_entries := incorrect_entries st;
     log := log st ++ [(lv, m)]; fetches := fetches st;
     playwright_running := playwright_running st;
     browser_open := browser_open st; events := events st |}.

Definition append_product (r : row) (st : state) : state :=
  {| products := products st ++ [r];
     bookkeeping_data := bookkeeping_data st;
     incorrect_entries := incorrect_entries st;
     log := log st; fetches := fetches st;
     playwright_running := playwright_running st;
     browser_open := browser_open st; events := events st |}.

Definition append_bookkeeping (r : row) (st : state) : state :=
  {| products := products st;
     bookkeeping_data := bookkeeping_data st ++ [r];
     incorrect_entries := incorrect_entries st;
     log := log st; fetches := fetches st;
     playwright_running := playwright_running st;
     browser_open := browser_open st; events := events st |}.

Definition append_incorrect (r : row) (st : state) : state :=
  {| products := products st;
     bookkeeping_data := bookkeeping_data st;
     incorrect_entries := incorrect_entries st ++ [r];
     log := log st; fetches := fetches st;
     playwright_running := playwright_running st;
     browser_open := browser_open st; events := events st |}.

Definition count_fetch (st : state) : state :=
  {| products := products st; bookkeeping_data := bookkeeping_data st;
     incorrect_entries := incorrect_entries st;
     log := log st; fetches := S (fetches st);
     playwright_running := playwright_running st;
     browser_open := browser_open st; events := events st |}.

(** An event of the rendering context and the flags after it. *)
Definition record (ev : event) (running open : bool) (st : state) : state :=
  {| products := products st; bookkeeping_data := bookkeeping_data st;
     incorrect_entries := incorrect_entries st;
     log := log st; fetches := fetches st;
     playwright_running := running;
     browser_open := open; events := events st ++ [ev] |}.

(** ** State and exception monad *)

Definition M (A : Type) : Type := state -> result A * state.

Definition ret {A} (a : A) : M A := fun st => (Ok a, st).

Definition raise {A} (e : exn) : M A := fun st => (Raise e, st).

Definition bind {A B} (m : M A) (k : A -> M B) : M B :=
  fun st =>
    match m st with
    | (Ok a, st') => k a st'
    | (Raise e, st') => (Raise e, st')
    end.

Definition lift {A} (r : result A) : M A := fun st => (r, st).

Definition modify (f : state -> state) : M unit := fun st => (Ok tt, f st).

Declare Scope py_scope.
Delimit Scope py_scope with py.
Notation "x <- m ;; k" := (bind m (fun x => k))
  (at level 61, m at next level, right associativity) : py_scope.
Notation "m ;; k" := (bind m (fun _ => k))
  (at level 61, right associativity) : py_scope.
Open Scope py_scope.

(** ** format_phone_number *)

Definition format_phone_number (ph : cell) : pystr := 39%N :: cell_str ph.

(** ** fetch_product_details *)

Definition reference_not_found : pystr :=
  Eval vm_compute in u "Reference not found".
Definition price_not_found : pystr :=
  Eval vm_compute in u "Price not found".

(** [page.query_selector(sel).inner_text().strip()
     if page.query_selector(sel) else missing] *)
Definition query_text (test get : result (option element)) (missing : pystr)
  : M pystr :=
  t <- lift test ;;
  match t with
  | None => ret missing
  | Some _ =>
    e <- lift get ;;
    match e with
    | None => raise AttributeError
    | Some el => txt <- lift (inner_text el) ;; ret (Py.strip txt)
    end
  end.

Definition launch_browser (p : page) : M unit :=
  lift (launch p) ;;
  modify (fun st => record BrowserLaunched (playwright_running st) true st).

Definition close_browser (p : page) : M unit :=
  lift (close p) ;;
  modify (fun st => record BrowserClosed (playwright_running st) false st).

(** [with sync_playwright() as playwright: body].  If entering raises, the
    body is not run.  Otherwise the block is left through the context
    manager's exit on every path, with the result or the exception of the
    body, and Playwright is stopped.  The program does nothing to the browser
    there: a browser that the body left open is down afterwards only when
    Playwright's exit takes it down, which is [closes]. *)
Definition with_playwright {A} (closes : bool) (p : page) (body : M A)
  : M A :=
  fun st =>
    match start p with
    | Raise e => (Raise e, st)
    | Ok _ =>
      let '(r, st') :=
        body (record PlaywrightStarted true (browser_open st) st) in
      (r, record PlaywrightStopped false
            (if closes then false else browser_open st') st')
    end.

(** Lines 25 to 47: the body of the [with] block. *)
Definition fetch_body (url : pystr) (p : page) : M (pystr * pystr) :=
  launch_browser p ;;
  lift (new_page p) ;;
  lift (goto p) ;;
  lift (wait_reference p) ;;
  lift (wait_price p) ;;
  reference <- query_text (reference_test p) (reference_get p)
                          reference_not_found ;;
  price <- query_text (price_test p) (price_get p) price_not_found ;;
  (if Py.str_eq reference reference_not_found
      || Py.str_eq price price_not_found
   then modify (logging WARNING (FetchNotFound url))
   else modify (logging INFO (FetchSucceeded url reference price))) ;;
  close_browser p ;;
  ret (reference, price).

(** The returned pair: each component is a [str] or [None]. *)
Definition fetch_product_details (w : env) (url : pystr)
  : state -> (option pystr * option pystr) * state :=
  fun st =>
    let p := web w (fetches st) url in
    match with_playwright (exit_closes_browser w) p (fetch_body url p)
                          (count_fetch st) with
    | (Ok (reference, price), st') => ((Some reference, Some price), st')
    | (Raise e, st') =>
        ((None, None), logging ERROR (FetchException url e) st')
    end.

(** The calls one fetch makes on a page, in program order, each with its
    outcome: the six calls up to the second wait, the calls of the two field
    queries, and [browser.close()].  The call after a raising one is not
    made; a call on [None] raises [AttributeError]. *)
Definition void {A} (r : result A) : result unit :=
  match r with
  | Ok _ => Ok tt
  | Raise e => Raise e
  end.

Definition query_calls (test get : result (option element))
  : list (result unit) :=
  match test with
  | Raise e => [Raise e]
  | Ok None => [Ok tt]
  | Ok (Some _) =>
    Ok tt ::
    match get with
    | Raise e => [Raise e]
    | Ok None => [Raise AttributeError]
    | Ok (Some el) => [Ok tt; void (inner_text el)]
    end
  end.

Definition calls (p : page) : list (result unit) :=
  [start p; launch p; new_page p; goto p; wait_reference p; wait_price p]
    ++ query_calls (reference_test p) (reference_get p)
    ++ query_calls (price_test p) (price_get p)
    ++ [close p].

(** Some call of the fetch raises. *)
Definition raises (p : page) : Prop := exists e, In (Raise e) (calls p).

(** ** parse_product_item and the item loop of process_csv *)

Definition name_tag : pystr :=
  Eval vm_compute in u "Product Name / 商品名稱".
Definition name_label : pystr :=
  Eval vm_compute in u "Product Name / 商品名稱: ".
Definition link_stop : pystr :=
  Eval vm_compute in u ", Product Link".
Definition link_label : pystr :=
  Eval vm_compute in u "Product Link / 商品網址: ".
Definition quantity_stop : pystr :=
  Eval vm_compute in u ", Product Quantity".
Definition quantity_label : pystr :=
  Eval vm_compute in u "Product Quantity / 所需數量: ".
Definition http : pystr := Eval vm_compute in u "http".
Definition corvusbelli_com : pystr := Eval vm_compute in u "corvusbelli.com".
Definition corvusbelli : pystr := Eval vm_compute in u "corvusbelli".
Definition warhammer : pystr := Eval vm_compute in u "warhammer".
Definition newline : pystr := [10%N].

Definition index_or_raise {A} (l : list A) (k : nat) : result A :=
  match Py.index l k with
  | Some x => Ok x
  | None => Raise IndexError
  end.

Definition rbind {A B} (r : result A) (k : A -> result B) : result B :=
  match r with
  | Ok a => k a
  | Raise e => Raise e
  end.

(** [item.split(label)[1].split(stop)[0].strip()] *)
Definition between (label stop item : pystr) : result pystr :=
  rbind (index_or_raise (Py.split label item) 1) (fun tail =>
  rbind (index_or_raise (Py.split stop tail) 0) (fun field =>
  Ok (Py.strip field))).

Definition parse_name (item : pystr) : result pystr :=
  between name_label link_stop item.

Definition parse_link (item : pystr) : result pystr :=
  between link_label quantity_stop item.

(** [int(item.split("Product Quantity / 所需數量: ")[1].strip())] *)
Definition parse_quantity (dec : N -> option N) (item : pystr) : result Z :=
  rbind (index_or_raise (Py.split quantity_label item) 1) (fun tail =>
  match Py.int dec (Py.strip tail) with
  | Some q => Ok q
  | None => Raise (ValueError InvalidLiteral)
  end).

(** Lines 131 to 136; lines 66 to 68 of [process_csv] are the same three
    statements. *)
Definition parse_product_item (dec : N -> option N) (item : pystr)
  : result (pystr * pystr * Z) :=
  rbind (parse_name item) (fun name =>
  rbind (parse_link item) (fun link =>
  rbind (parse_quantity dec item) (fun quantity =>
  Ok (name, link, quantity)))).

(** Truth value of a [str] or [None]. *)
Definition truthy (v : option pystr) : bool :=
  match v with
  | Some (_ :: _) => true
  | _ => false
  end.

Definition opt_value (v : option pystr) : pyval :=
  match v with
  | Some s => VStr s
  | None => VNone
  end.

Definition is_empty (s : pystr) : bool :=
  match s with [] => true | _ => false end.

(** The five-field row of an enriched item and the three-field row of a
    direct one. *)
Definition enriched_row (ref_number : option pystr) (name link : pystr)
    (euro_price : option pystr) (quantity : Z) : row :=
  [opt_value ref_number; VStr name; VStr link; opt_value euro_price;
   VInt quantity].

Definition direct_row (name : pystr) (quantity : Z) (link : pystr) : row :=
  [VStr name; VInt quantity; VStr link].

Definition ledger_row (r : order_record) (name : pystr) (quantity : Z)
    (link : pystr) : row :=
  [VStr name; VInt quantity; cell_value (customer r);
   VStr (format_phone_number (phone r)); cell_value (submission_date r);
   VStr link].

Definition rejected_row (r : order_record) (item : pystr) : row :=
  [cell_value (customer r); VStr (format_phone_number (phone r));
   cell_value (submission_date r); VStr item].

(** Lines 66 to 95: the body of the [try]. *)
Definition item_body (w : env) (index : nat) (r : order_record)
    (item : pystr) : M unit :=
  parsed <- lift (parse_product_item (decimal w) item) ;;
  let '(name, link, quantity) := parsed in
  (if negb (Py.startswith http link)
   then modify (logging ERROR (InvalidLinkFormat index link)) ;;
        raise (ValueError LinkNotHttp)
   else ret tt) ;;
  (if is_empty link || is_empty name || (quantity <=? 0)%Z
   then modify (logging ERROR
                  (MissingOrInvalidData index name link quantity)) ;;
        raise (ValueError InvalidProductData)
   else ret tt) ;;
  (if Py.contains corvusbelli_com link
   then fetched <- (fun st => let '(v, st') := fetch_product_details w link st
                              in (Ok v, st')) ;;
        let '(ref_number, euro_price) := fetched in
        if negb (truthy ref_number) || negb (truthy euro_price)
        then modify (logging ERROR
                       (FetchDetailsFailed index ref_number euro_price)) ;;
             raise (ValueError FetchFailed)
        else modify (append_product
                       (enriched_row ref_number name link euro_price
                                     quantity))
   else modify (append_product (direct_row name quantity link))) ;;
  modify (append_bookkeeping (ledger_row r name quantity link)).

(** Lines 97 to 105: the [except Exception] handler. *)
Definition item_handler (index : nat) (r : order_record) (item : pystr)
    (e : exn) (st : state) : state :=
  append_incorrect (rejected_row r item)
    (logging ERROR (ErrorAtIndex index (customer r) e) st).

(** Lines 64 to 105: one iteration of the inner loop. *)
Definition process_item (w : env) (index : nat) (r : order_record)
    (item : pystr) (st : state) : state :=
  if Py.contains name_tag item then
    match item_body w index r item st with
    | (Ok _, st') => st'
    | (Raise e, st') => item_handler index r item e st'
    end
  else st.

(** Lines 62 to 105: one iteration of the outer loop.  [split] is a method
    of [str]; a NaN cell is a float and has none. *)
Definition process_record (w : env) (index : nat) (r : order_record)
  : M unit :=
  match item_blob r with
  | NaN => raise AttributeError
  | Text blob =>
      modify (fun st =>
                fold_left (fun st' item => process_item w index r item st')
                          (Py.split newline blob) st)
  end.

Fixpoint process_records (w : env) (index : nat) (data : list order_record)
  : M unit :=
  match data with
  | [] => ret tt
  | r :: data' =>
      process_record w index r ;; process_records w (S index) data'
  end.

(** ** The tables built after the loop *)

(** [marker in p[k]] for a row [p]. *)
Definition field_contains (marker : pystr) (k : nat) (p : row)
  : result bool :=
  match Py.index p k with
  | None => Raise IndexError
  | Some (VStr s) => Ok (Py.contains marker s)
  | Some _ => Raise TypeError
  end.

(** [[p for p in rows if marker in p[k]]] *)
Fixpoint select (marker : pystr) (k : nat) (rows : list row)
  : result (list row) :=
  match rows with
  | [] => Ok []
  | p :: rows' =>
    rbind (field_contains marker k p) (fun b =>
    rbind (select marker k rows') (fun rest =>
    Ok (if b then p :: rest else rest)))
  end.

Definition width (rows : list row) : nat :=
  fold_right (fun r m => Nat.max (length r) m) 0 rows.

Definition pad (columns : nat) (r : row) : row :=
  r ++ repeat VNone (columns - length r).

(** [pd.DataFrame(rows, columns=...)] on a list of lists: the widest row
    must have as many fields as there are column names; narrower rows are
    filled with [None]. *)
Definition DataFrame (rows : list row) (columns : nat)
  : result (list row) :=
  match rows with
  | [] => Ok []
  | _ :: _ =>
    if Nat.eqb (width rows) columns then Ok (map (pad columns) rows)
    else Raise (ValueError ColumnsMismatch)
  end.

(** [df[df['Link'].str.contains(marker)]]: [str.contains] gives NaN on a
    value that is not a [str], and a mask holding NaN cannot index. *)
Fixpoint mask_link (marker : pystr) (rows : list row) : result (list row) :=
  match rows with
  | [] => Ok []
  | p :: rows' =>
    match Py.index p 5 with
    | Some (VStr s) =>
        rbind (mask_link marker rows') (fun rest =>
        Ok (if Py.contains marker s then p :: rest else rest))
    | _ => Raise (ValueError CannotMask)
    end
  end.

(** The sort key of a ledger row: its Date, [None] where it is NaN. *)
Definition date_key (r : row) : option pystr :=
  match nth_error r 4 with
  | Some (VStr s) => Some s
  | _ => None
  end.

(** The order of [sort_values]: ascending, missing values last. *)
Definition key_le (a b : option pystr) : bool :=
  match a, b with
  | Some x, Some y => Py.str_le x y
  | _, None => true
  | None, Some _ => false
  end.

Definition date_le (a b : row) : bool := key_le (date_key a) (date_key b).

Fixpoint insert_by_date (r : row) (sorted : list row) : list row :=
  match sorted with
  | [] => [r]
  | h :: t => if date_le r h then r :: h :: t else h :: insert_by_date r t
  end.

(** [df.sort_values(by='Date')] on a Date column of text and NaN: the
    rows in ascending order of date, missing dates last.  The default sort of
    pandas is not stable: which of two rows with equal dates comes first is
    its choice, and the input order kept by this insertion sort is one such
    choice.  What carries over to the program is that the result is sorted
    ([sort_values_sorted]) and holds the same rows ([sort_values_perm]). *)
Definition sort_values (rows : list row) : list row :=
  fold_right insert_by_date [] rows.

(** The tables of one run, as they are handed to [to_excel]: their rows,
    headers left out.  The table of incorrect entries is [None] when it is
    empty; it is then not written. *)
Record outputs := {
  corvus_belli : list row;           (* CorvusBelli_Supplier *)
  games_workshop : list row;         (* GamesWorkshop_Supplier *)
  infinity_bookkeeping : list row;   (* Infinity_BookKeeping *)
  gw_bookkeeping : list row;         (* GW_BookKeeping *)
  incorrect : option (list row)      (* retards *)
}.

(** Lines 110 to 114 and the two ledger selections of lines 124 and 125:
    the frames are built, selected and sorted.  Nothing is written here: the
    directories and the calls of [to_excel] (lines 117 to 127) are [export]
    below. *)
Definition build_tables (st : state) : result outputs :=
  rbind (select corvusbelli_com 2 (products st)) (fun cb_rows =>
  rbind (DataFrame cb_rows 5) (fun corvus_belli_df =>
  rbind (select warhammer 2 (products st)) (fun gw_rows =>
  rbind (DataFrame gw_rows 3) (fun games_workshop_df =>
  rbind (DataFrame (bookkeeping_data st) 6) (fun df_bookkeeping =>
  rbind (DataFrame (incorrect_entries st) 4) (fun df_incorrect =>
  rbind (mask_link corvusbelli df_bookkeeping) (fun infinity =>
  rbind (mask_link warhammer df_bookkeeping) (fun gw =>
  Ok {| corvus_belli := corvus_belli_df;
        games_workshop := games_workshop_df;
        infinity_bookkeeping := sort_values infinity;
        gw_bookkeeping := sort_values gw;
        incorrect := match df_incorrect with
                     | [] => None
                     | _ :: _ => Some df_incorrect
                     end |})))))))).

(** [process_csv] from the frame [data] that [pd.read_csv] returned, up to
    the tables it hands to the export: lines 58 to 114 with the selections
    of lines 124 and 125.  The whole function, with lines 116 to 127, is
    [process_csv_file] below. *)
Definition process_csv (w : env) (data : list order_record)
  : M outputs :=
  modify (fun st => {| products := []; bookkeeping_data := [];
                       incorrect_entries := []; log := log st;
                       fetches := fetches st;
                       playwright_running := playwright_running st;
                       browser_open := browser_open st;
                       events := events st |}) ;;
  process_records w 0 data ;;
  (fun st => (build_tables st, st)).

(** The tables of a run on one input frame, or the exception that ended
    it before they were built. *)
Definition run (w : env) (data : list order_record) : result outputs :=
  fst (process_csv w data init).

(** The accumulators when the loop over [data] has ended; [None] when it
    raised. *)
Definition loop (w : env) (data : list order_record) : option state :=
  match process_records w 0 data init with
  | (Ok _, st) => Some st
  | (Raise _, _) => None
  end.

(** ** Occurrences of a separator (used to reason about [split]) *)

Module Occ.
Import Py.

(** No occurrence of [sub] starts inside the first part [a] of [a ++ t]. *)
Definition clear (sub a t : pystr) : Prop :=
  forall j, j < length a -> startswith sub (skipn j (a ++ t)) = false.

(** Could [sub] start at the head of [r], whatever follows [r]? *)
Fixpoint compat (sub r : pystr) : bool :=
  match sub, r with
  | [], _ => true
  | _ :: _, [] => true
  | a :: sub', b :: r' => (a =? b)%N && compat sub' r'
  end.

(** No position of the literal [r] can start an occurrence of [sub]. *)
Definition clear_literal (sub r : pystr) : bool :=
  forallb (fun j => negb (compat sub (skipn j r))) (seq 0 (length r)).

(** The first piece of a cut. *)
Definition first_piece (sep s : pystr) : pystr :=
  match find sep s with
  | None => s
  | Some i => firstn i s
  end.

(** The literal [lit] begins with a character that [sub] does not have after
    its first one. *)
Definition head_outside (sub lit : pystr) : bool :=
  match lit with
  | c :: _ => negb (existsb (N.eqb c) (tl sub))
  | [] => false
  end.

End Occ.

(** ** Framing: what a step leaves alone *)

(** [st'] has the same three accumulators as [st]. *)
Definition same_tables (st st' : state) : Prop :=
  products st' = products st /\
  bookkeeping_data st' = bookkeeping_data st /\
  incorrect_entries st' = incorrect_entries st.

(** The log of [st'] continues the log of [st]. *)
Definition log_grows (st st' : state) : Prop :=
  exists l, log st' = log st ++ l.

(** A computation whose final state is always related to its initial one. *)
Definition preserves {A} (R : state -> state -> Prop) (m : M A) : Prop :=
  forall st, R st (snd (m st)).

(** ** Routing of candidate items *)

(** The fields of an accepted item passed the checks of lines 71 to 77. *)
Definition valid_fields (name link : pystr) (quantity : Z) : Prop :=
  Py.startswith http link = true /\ name <> [] /\ (0 < quantity)%Z.

(** The row an accepted item adds to [products]: the direct shape for a link
    without the reference-priced vendor's marker, the enriched shape with a
    non-empty reference and price for a link with it. *)
Definition product_shape (name link : pystr) (quantity : Z) (p : row)
  : Prop :=
  (Py.contains corvusbelli_com link = false /\
   p = direct_row name quantity link)
  \/ (Py.contains corvusbelli_com link = true /\
      exists reference price,
        reference <> [] /\ price <> [] /\
        p = enriched_row (Some reference) name link (Some price) quantity).

(** What became of a candidate item. *)
Inductive verdict :=
| Rejected (e : exn)
| Accepted (name link : pystr) (quantity : Z) (product : row).

(** A candidate: the index of its record, the record, the item text. *)
Definition candidate : Type := nat * order_record * pystr.

Definition routing : Type := list (candidate * verdict).

(** The Item Descriptions of a record that carry the name tag. *)
Definition items_of (r : order_record) : list pystr :=
  match item_blob r with
  | Text blob => filter (Py.contains name_tag) (Py.split newline blob)
  | NaN => []
  end.

Fixpoint candidates_from (index : nat) (data : list order_record)
  : list candidate :=
  match data with
  | [] => []
  | r :: data' =>
      map (fun item => (index, r, item)) (items_of r)
        ++ candidates_from (S index) data'
  end.

(** The candidate items of the input, in input order. *)
Definition candidates (data : list order_record) : list candidate :=
  candidates_from 0 data.

Definition rejected_rows (vs : routing) : list row :=
  flat_map (fun cv =>
              match cv with
              | ((_, r, item), Rejected _) => [rejected_row r item]
              | (_, Accepted _ _ _ _) => []
              end) vs.

Definition product_rows (vs : routing) : list row :=
  flat_map (fun cv =>
              match cv with
              | (_, Rejected _) => []
              | (_, Accepted _ _ _ p) => [p]
              end) vs.

Definition ledger_rows (vs : routing) : list row :=
  flat_map (fun cv =>
              match cv with
              | (_, Rejected _) => []
              | ((_, r, _), Accepted name link quantity _) =>
                  [ledger_row r name quantity link]
              end) vs.

(** An accepted verdict carries the parse of its item, valid fields and a
    product row of the right shape. *)
Definition sound (dec : N -> option N) (cv : candidate * verdict) : Prop :=
  match cv with
  | (_, Rejected _) => True
  | ((_, _, item), Accepted name link quantity p) =>
      parse_product_item dec item = Ok (name, link, quantity) /\
      valid_fields name link quantity /\
      product_shape name link quantity p
  end.

(** The handler logged the exception of a rejected candidate. *)
Definition logged (lg : list log_record) (cv : candidate * verdict) : Prop :=
  match cv with
  | ((index, r, _), Rejected e) =>
      In (ERROR, ErrorAtIndex index (customer r) e) lg
  | (_, Accepted _ _ _ _) => True
  end.

(** [st'] is [st] with the rows of the routing [vs] appended. *)
Definition extends (st : state) (vs : routing) (st' : state) : Prop :=
  products st' = products st ++ product_rows vs /\
  bookkeeping_data st' = bookkeeping_data st ++ ledger_rows vs /\
  incorrect_entries st' = incorrect_entries st ++ rejected_rows vs.

(** ** The selections behind the output tables *)

(** The field at index 2 of a product row; both row shapes keep the link
    there. *)
Definition link_of_product (p : row) : pystr :=
  match nth_error p 2 with
  | Some (VStr s) => s
  | _ => []
  end.

(** The Link column of a ledger row. *)
Definition link_of_ledger (p : row) : pystr :=
  match nth_error p 5 with
  | Some (VStr s) => s
  | _ => []
  end.

Definition supplier_selection (marker : pystr) (rows : list row)
  : list row :=
  filter (fun p => Py.contains marker (link_of_product p)) rows.

Definition ledger_selection (marker : pystr) (rows : list row) : list row :=
  filter (fun p => Py.contains marker (link_of_ledger p)) rows.

(** Rows in non-decreasing order of date. *)
Definition date_sorted (rows : list row) : Prop :=
  Sorted (fun a b => date_le a b = true) rows.

(** The tables built from the accumulators when the loop has ended. *)
Definition tables_of (st : state) (out : outputs) : Prop :=
  corvus_belli out = supplier_selection corvusbelli_com (products st) /\
  games_workshop out = supplier_selection warhammer (products st) /\
  infinity_bookkeeping out =
    sort_values (ledger_selection corvusbelli (bookkeeping_data st)) /\
  gw_bookkeeping out =
    sort_values (ledger_selection warhammer (bookkeeping_data st)) /\
  incorrect out = match incorrect_entries st with
                  | [] => None
                  | _ :: _ => Some (incorrect_entries st)
                  end.

(** The rows of the accumulators have the shapes the loop gives them. *)
Definition product_ok (p : row) : Prop :=
  exists name link quantity, product_shape name link quantity p.

Definition ledger_ok (l : row) : Prop :=
  exists r name quantity link, l = ledger_row r name quantity link.

Definition rejected_ok (x : row) : Prop :=
  exists r item, x = rejected_row r item.

Definition well_shaped (st : state) : Prop :=
  Forall product_ok (products st) /\
  Forall ledger_ok (bookkeeping_data st) /\
  Forall rejected_ok (incorrect_entries st).

(** A link that carries the markers of both vendors. *)
Definition both_vendors (link : pystr) : Prop :=
  Py.contains corvusbelli_com link = true /\
  Py.contains warhammer link = true.

(** ** Invalid fields of a candidate item *)

(** The quantity field is not a number, or is a number that is not
    positive. *)
Definition invalid_quantity (dec : N -> option N) (item : pystr) : Prop :=
  parse_quantity dec item = Raise (ValueError InvalidLiteral) \/
  exists quantity,
    parse_quantity dec item = Ok quantity /\ (quantity <= 0)%Z.

(** The link field does not start with 'http', the prefix line 71 tests. *)
Definition invalid_link (item : pystr) : Prop :=
  exists link, parse_link item = Ok link /\ Py.startswith http link = false.

(** ** The fixed label format of an Item Description *)

Definition link_sep : pystr :=
  Eval vm_compute in u ", Product Link / 商品網址: ".
Definition quantity_sep : pystr :=
  Eval vm_compute in u ", Product Quantity / 所需數量: ".

Definition comma_space : pystr := Eval vm_compute in u ", ".

(** The rendering of a triple in the label format: name label, name, link
    label, link, quantity label, quantity in decimal. *)
Definition render (name link : pystr) (quantity : Z) : pystr :=
  name_label ++ name ++ link_sep ++ link ++ quantity_sep
    ++ Py.str_of_int quantity.

(** A name the format can carry: no white space around it, and none of the
    label texts the parser cuts at inside it. *)
Definition plain_name (name : pystr) : Prop :=
  Py.strip name = name /\
  Py.contains name_label name = false /\
  Py.contains link_stop name = false /\
  Py.contains link_label name = false /\
  Py.contains quantity_label name = false.

(** A link the format can carry. *)
Definition plain_link (link : pystr) : Prop :=
  Py.strip link = link /\
  Py.contains link_label link = false /\
  Py.contains quantity_stop link = false /\
  Py.contains quantity_label link = false.

(** ** Concrete inputs for the examples *)

(** A table of decimal digits outside ASCII holding the fullwidth digits
    (U+FF10 to U+FF19) and the Arabic-Indic digits (U+0660 to U+0669). *)
Definition decimal_sample (c : N) : option N :=
  if ((65296 <=? c) && (c <=? 65305))%N then Some (c - 65296)%N
  else if ((1632 <=? c) && (c <=? 1641))%N then Some (c - 1632)%N
  else None.

Definition element_with (text : string) : option element :=
  Some {| inner_text := Ok (u text) |}.

(** A product page on which both markers appear. *)
Definition page_ok (reference price : string) : page :=
  {| start := Ok tt; launch := Ok tt; new_page := Ok tt; goto := Ok tt;
     wait_reference := Ok tt; wait_price := Ok tt;
     reference_test := Ok (element_with reference);
     reference_get := Ok (element_with reference);
     price_test := Ok (element_with price);
     price_get := Ok (element_with price);
     close := Ok tt |}.

(** A page whose reference marker is gone when it is queried. *)
Definition page_reference_gone (price : string) : page :=
  {| start := Ok tt; launch := Ok tt; new_page := Ok tt; goto := Ok tt;
     wait_reference := Ok tt; wait_price := Ok tt;
     reference_test := Ok None;
     reference_get := Ok None;
     price_test := Ok (element_with price);
     price_get := Ok (element_with price);
     close := Ok tt |}.

(** A page on which the reference marker never appears: the wait runs into
    its timeout. *)
Definition page_timeout : page :=
  {| start := Ok tt; launch := Ok tt; new_page := Ok tt; goto := Ok tt;
     wait_reference := Raise TimeoutError; wait_price := Ok tt;
     reference_test := Ok None; reference_get := Ok None;
     price_test := Ok None; price_get := Ok None;
     close := Ok tt |}.

(** The cell texts openpyxl refuses: a control character other than tab,
    line feed and carriage return among the first 32767 characters. *)
Definition illegal_character (c : N) : bool :=
  ((c <=? 8) || ((11 <=? c) && (c <=? 12)) || ((14 <=? c) && (c <=? 31)))%N.

Definition illegal_cell (v : pyval) : bool :=
  match v with
  | VStr s => existsb illegal_character (firstn (N.to_nat 32767) s)
  | _ => false
  end.

Definition openpyxl_error (path : pystr) (rows : list row) : option exn :=
  if existsb (existsb illegal_cell) rows then Some IllegalCharacterError
  else None.

(** An environment in which every fetch meets the page [p]; [closes] tells
    whether Playwright's exit takes the browser down.  Directories can be
    made, and the spreadsheet writer is openpyxl. *)
Definition env_with (closes : bool) (p : page) : env :=
  {| decimal := decimal_sample; web := fun _ _ => p;
     exit_closes_browser := closes;
     makedirs_error := fun _ => None;
     writer_error := openpyxl_error |}.

Definition env_of (p : page) : env := env_with true p.

Definition item_line (name link quantity : string) : pystr :=
  name_label ++ u name ++ link_sep ++ u link ++ quantity_sep ++ u quantity.

Definition lines (items : list pystr) : pystr :=
  match items with
  | [] => []
  | first :: rest => first ++ flat_map (fun i => newline ++ i) rest
  end.

(** Two orders: the later one first. *)
Definition ann : order_record :=
  {| customer := Text (u "Ann");
     phone := Text (u "0912345678");
     submission_date := Text (u "2024-03-02 10:00:00");
     item_blob :=
       Text (lines [item_line "Figure A" "http://warhammer.example/a" "2";
                    item_line "Figure B" "http://corvusbelli.com/b" "-1";
                    u "thank you"]) |}.

Definition bob : order_record :=
  {| customer := Text (u "Bob");
     phone := Text (u "0223456789");
     submission_date := Text (u "2024-01-15 08:30:00");
     item_blob :=
       Text (lines [item_line "Tank" "http://warhammer.example/t" "1";
                    item_line "Model C" "https://store.corvusbelli.com/c" "3";
                    item_line "Dice" "httpgarbage" "6"]) |}.

Definition orders : list order_record := [ann; bob].

(** A record whose item cell is empty in the file. *)
Definition blank : order_record :=
  {| customer := Text (u "Cid");
     phone := Text (u "0300000000");
     submission_date := Text (u "2024-02-01 09:00:00");
     item_blob := NaN |}.

Definition shop : env := env_of (page_ok "REF123" "45").

Definition no_tables : outputs :=
  {| corvus_belli := []; games_workshop := []; infinity_bookkeeping := [];
     gw_bookkeeping := []; incorrect := None |}.

(** The tables of the run on [orders]. *)
Definition orders_out : outputs :=
  Eval vm_compute in
    match run shop orders with
    | Ok out => out
    | Raise _ => no_tables
    end.

(** An order for an item of a third shop. *)
Definition eve : order_record :=
  {| customer := Text (u "Eve");
     phone := Text (u "0955555555");
     submission_date := Text (u "2024-04-01 12:00:00");
     item_blob :=
       Text (item_line "Paint set" "http://example.com/paint" "1") |}.


(** An order for an item of the reference-priced vendor. *)
Definition fay : order_record :=
  {| customer := Text (u "Fay");
     phone := Text (u "0977777777");
     submission_date := Text (u "2024-04-03 12:00:00");
     item_blob :=
       Text (item_line "Model D" "http://corvusbelli.com/d" "2") |}.

(** An order whose link starts with 'http' and has no scheme separator. *)
Definition hal : order_record :=
  {| customer := Text (u "Hal");
     phone := Text (u "0988888888");
     submission_date := Text (u "2024-04-04 12:00:00");
     item_blob := Text (item_line "Dice" "httpwarhammer" "6") |}.

(** An order whose item name holds the control character U+0007. *)
Definition ivy : order_record :=
  {| customer := Text (u "Ivy");
     phone := Text (u "0999999999");
     submission_date := Text (u "2024-04-05 12:00:00");
     item_blob :=
       Text (name_label ++ [7%N] ++ link_sep
               ++ u "http://warhammer.example/bell" ++ quantity_sep
               ++ u "1") |}.

(** ** URL schemes *)

(** A URL scheme prefix as RFC 3986 writes it: a letter, then letters,
    digits, '+', '-' or '.', then a colon ('http:', 'https:', 'ftp:').  The
    program does not look for one: line 71 tests the four characters
    'http'. *)
Definition is_letter (c : N) : bool :=
  (((65 <=? c) && (c <=? 90)) || ((97 <=? c) && (c <=? 122)))%N.

Definition scheme_char (c : N) : bool :=
  (is_letter c || Py.is_digit c || (c =? 43) || (c =? 45) || (c =? 46))%N.

Fixpoint scheme_tail (s : pystr) : bool :=
  match s with
  | [] => false
  | c :: t => (c =? 58)%N || (scheme_char c && scheme_tail t)
  end.

Definition has_scheme_prefix (s : pystr) : bool :=
  match s with
  | [] => false
  | c :: t => is_letter c && scheme_tail t
  end.

(** ** Further properties: definitions *)

(** [s.endswith(p)] *)
Definition endswith (p s : pystr) : bool :=
  Py.startswith (rev p) (rev s).

(** A name or a link without the label texts the parser cuts at; white
    space around it is allowed. *)
Definition label_free_name (name : pystr) : Prop :=
  Py.contains name_label name = false /\
  Py.contains link_stop name = false /\
  Py.contains link_label name = false /\
  Py.contains quantity_label name = false.

Definition label_free_link (link : pystr) : Prop :=
  Py.contains link_label link = false /\
  Py.contains quantity_stop link = false /\
  Py.contains quantity_label link = false.

(** The candidate item passes lines 66 to 77 and its link carries the
    marker of the reference-priced vendor: line 80 is reached. *)
Definition needs_enrichment (dec : N -> option N) (item : pystr) : bool :=
  Py.contains name_tag item &&
  match parse_product_item dec item with
  | Ok (name, link, quantity) =>
      Py.startswith http link && negb (is_empty link)
      && negb (is_empty name) && negb (quantity <=? 0)%Z
      && Py.contains corvusbelli_com link
  | Raise _ => false
  end.

(** No rendering context is alive. *)
Definition no_browser (st : state) : Prop :=
  browser_open st = false /\ playwright_running st = false.

(** What takes the browsers of a run down: Playwright's exit does, or no call
    of any fetch raises, so that every fetch reaches its [browser.close()]. *)
Definition contexts_end (w : env) : Prop :=
  exit_closes_browser w = true \/ forall n url, ~ raises (web w n url).

(** ** The report files (lines 13 to 15, 116 to 127 and 139 to 143) *)

(** The working directory: the names of its subdirectories, and its files
    by path, the latest write first.  One level of directories is followed,
    which is what the program makes: a name is kept as it is passed. *)
Record disk := {
  dirs : list pystr;
  files : list (pystr * list row)
}.

Definition is_dir (d : pystr) (k : disk) : bool :=
  existsb (Py.str_eq d) (dirs k).

Definition is_file (path : pystr) (k : disk) : bool :=
  existsb (fun f => Py.str_eq path (fst f)) (files k).

(** [os.path.exists(path)]: true of a directory and of a file. *)
Definition path_exists (path : pystr) (k : disk) : bool :=
  is_dir path k || is_file path k.

(** [os.makedirs(name)] for a name that does not exist: the empty name
    raises [FileNotFoundError]; another name raises what the system raises
    for it, if anything; otherwise the directory is there afterwards. *)
Definition makedirs (w : env) (name : pystr) (k : disk) : result disk :=
  if is_empty name then Raise FileNotFoundError
  else match makedirs_error w name with
       | Some e => Raise e
       | None => Ok {| dirs := name :: dirs k; files := files k |}
       end.

(** Lines 13 to 15: an exception of [os.makedirs] is not caught. *)
Definition ensure_dir (w : env) (directory : pystr) (k : disk)
  : result disk :=
  if path_exists directory k then Ok k
  else makedirs w directory k.

(** The content of a file, [None] when there is none. *)
Definition read_file (path : pystr) (k : disk) : option (list row) :=
  option_map snd (find (fun f => Py.str_eq path (fst f)) (files k)).

Definition slash : pystr := Eval vm_compute in u "/".

Definition report_path (directory today name : pystr) : pystr :=
  directory ++ slash ++ today ++ name.

(** [df.to_excel(f'{directory}/{today}{name}', index=False)]: raises
    [OSError] when [directory] is not a directory, raises what the writer
    raises for the path and the rows, if anything, and otherwise writes the
    file, replacing an older one.  What a write that raised leaves of the
    file is not followed. *)
Definition to_excel (w : env) (directory today name : pystr)
    (rows : list row) (k : disk) : result disk :=
  if is_dir directory k
  then match writer_error w (report_path directory today name) rows with
       | Some e => Raise e
       | None =>
           Ok {| dirs := dirs k;
                 files := (report_path directory today name, rows)
                            :: files k |}
       end
  else Raise OSError.

Definition CorvusBelli_Supplier : pystr :=
  Eval vm_compute in u "CorvusBelli_Supplier".
Definition GamesWorkshop_Supplier : pystr :=
  Eval vm_compute in u "GamesWorkshop_Supplier".
Definition GW_BookKeeping : pystr := Eval vm_compute in u "GW_BookKeeping".
Definition Infinity_BookKeeping : pystr :=
  Eval vm_compute in u "Infinity_BookKeeping".
Definition retards : pystr := Eval vm_compute in u "retards".

Definition directories : list pystr :=
  [CorvusBelli_Supplier; GamesWorkshop_Supplier; GW_BookKeeping;
   Infinity_BookKeeping; retards].

Definition corvus_belli_xlsx : pystr :=
  Eval vm_compute in u "_corvus_belli.xlsx".
Definition games_workshop_xlsx : pystr :=
  Eval vm_compute in u "_games_workshop.xlsx".
Definition infinity_bookkeeping_xlsx : pystr :=
  Eval vm_compute in u "_infinity_bookkeeping.xlsx".
Definition gw_bookkeeping_xlsx : pystr :=
  Eval vm_compute in u "_gw_bookkeeping.xlsx".
Definition incorrect_entries_xlsx : pystr :=
  Eval vm_compute in u "_incorrect_entries.xlsx".

(** Steps on the disk in order; the first that raises ends them. *)
Fixpoint write_all (writes : list (disk -> result disk)) (k : disk)
  : result disk :=
  match writes with
  | [] => Ok k
  | write :: rest => rbind (write k) (write_all rest)
  end.

(** Lines 117 to 127: the five directories are ensured, the four tables are
    written, and the incorrect entries when there are some.  [today] is the
    date of the run as [strftime('%Y%m%d')] gives it.  No exception is
    caught here. *)
Definition export (w : env) (today : pystr) (out : outputs) (k : disk)
  : result disk :=
  rbind (write_all (map (ensure_dir w) directories) k) (fun k0 =>
  write_all
    ([to_excel w CorvusBelli_Supplier today corvus_belli_xlsx
               (corvus_belli out);
      to_excel w GamesWorkshop_Supplier today games_workshop_xlsx
               (games_workshop out);
      to_excel w Infinity_BookKeeping today infinity_bookkeeping_xlsx
               (infinity_bookkeeping out);
      to_excel w GW_BookKeeping today gw_bookkeeping_xlsx
               (gw_bookkeeping out)]
     ++ match incorrect out with
        | Some rows => [to_excel w retards today incorrect_entries_xlsx rows]
        | None => []
        end)
    k0).

(** The whole of [process_csv], with its files.  [false] stands for an
    exception, from the loop, the building of the tables or the export; it
    ends the program, and the disk given with it is the one before the
    export: what an export that raised has written by then is not
    followed. *)
Definition process_csv_file (w : env) (today : pystr)
    (data : list order_record) (sk : state * disk) : bool * (state * disk) :=
  match process_csv w data (fst sk) with
  | (Ok out, st') =>
      match export w today out (snd sk) with
      | Ok k' => (true, (st', k'))
      | Raise _ => (false, (st', snd sk))
      end
  | (Raise _, st') => (false, (st', snd sk))
  end.

Definition dot_csv : pystr := Eval vm_compute in u ".csv".

(** Lines 139 to 143.  [listing] is [os.listdir] of the working directory
    with what [pd.read_csv] reads from each file; [clock n] is the date
    when the [n]-th CSV file is processed.  An exception ends the program:
    the files after it are not processed. *)
Fixpoint main (w : env) (clock : nat -> pystr) (n : nat)
    (listing : list (pystr * list order_record)) (sk : state * disk)
  : bool * (state * disk) :=
  match listing with
  | [] => (true, sk)
  | (file_name, data) :: rest =>
    if endswith dot_csv file_name then
      match process_csv_file w (clock n) data sk with
      | (true, sk') => main w clock (S n) rest sk'
      | (false, sk') => (false, sk')
      end
    else main w clock n rest sk
  end.

(** None of the five directory names is taken by a file. *)
Definition names_free (k : disk) : Prop :=
  Forall (fun d => is_file d k = false) directories.

(** The system lets each of the five directories be made. *)
Definition directories_allowed (w : env) : Prop :=
  Forall (fun d => makedirs_error w d = None) directories.

(** The four report files of a date hold the four tables. *)
Definition reports_of (today : pystr) (out : outputs) (k : disk) : Prop :=
  read_file (report_path CorvusBelli_Supplier today corvus_belli_xlsx) k
    = Some (corvus_belli out) /\
  read_file (report_path GamesWorkshop_Supplier today games_workshop_xlsx) k
    = Some (games_workshop out) /\
  read_file (report_path Infinity_BookKeeping today infinity_bookkeeping_xlsx)
            k
    = Some (infinity_bookkeeping out) /\
  read_file (report_path GW_BookKeeping today gw_bookkeeping_xlsx) k
    = Some (gw_bookkeeping out).

Definition incorrect_path (today : pystr) : pystr :=
  report_path retards today incorrect_entries_xlsx.

(** An empty working directory, and one with a report of an earlier run. *)
Definition empty_disk : disk := {| dirs := []; files := [] |}.

Definition used_disk : disk :=
  {| dirs := [retards];
     files := [(incorrect_path (u "20240501"), [[VStr (u "old entry")]])] |}.

(** The five paths one export can write. *)
Definition report_paths (today : pystr) : list pystr :=
  [report_path CorvusBelli_Supplier today corvus_belli_xlsx;
   report_path GamesWorkshop_Supplier today games_workshop_xlsx;
   report_path Infinity_BookKeeping today infinity_bookkeeping_xlsx;
   report_path GW_BookKeeping today gw_bookkeeping_xlsx;
   incorrect_path today].

(** The files a completed export puts before the files that were there. *)
Definition written (today : pystr) (out : outputs)
  : list (pystr * list row) :=
  match incorrect out with
  | Some rows => [(incorrect_path today, rows)]
  | None => []
  end ++
  [(report_path GW_BookKeeping today gw_bookkeeping_xlsx,
    gw_bookkeeping out);
   (report_path Infinity_BookKeeping today infinity_bookkeeping_xlsx,
    infinity_bookkeeping out);
   (report_path GamesWorkshop_Supplier today games_workshop_xlsx,
    games_workshop out);
   (report_path CorvusBelli_Supplier today corvus_belli_xlsx,
    corvus_belli out)].

(** The writer raises for none of the files of an export. *)
Definition writes_allowed (w : env) (today : pystr) (out : outputs) : Prop :=
  Forall (fun f => writer_error w (fst f) (snd f) = None) (written today out).

(** The CSV files of a listing. *)
Definition csv_count (listing : list (pystr * list order_record)) : nat :=
  length (filter (fun f => endswith dot_csv (fst f)) listing).

(** A working directory with two order files and a text file, processed on
    one day. *)
Definition listing_sample : list (pystr * list order_record) :=
  [(u "monday.csv", [ann]); (u "notes.txt", [blank]); (u "tuesday.csv", [bob])].

Definition may_first (n : nat) : pystr := u "20240501".

Example split_abc :
  Py.split (u ",") (u "a,b,,c") = [u "a"; u "b"; u ""; u "c"].
Proof. reflexivity. Qed.

Example int_examples :
  map (Py.int (fun _ => None))
      [u "12"; u " +7 "; u "-1"; u "1_000"; u "1__0"; u "abc"; u ""; u "007"]
  = [Some 12; Some 7; Some (-1); Some 1000; None; None; None; Some 7]%Z.
Proof. reflexivity. Qed.

Example str_of_int_examples :
  map Py.str_of_int [0; 42; -17]%Z = [u "0"; u "42"; u "-17"].
Proof. reflexivity. Qed.

(** * Properties *)

(** ** Strings: prefixes, occurrences and cuts *)

Module PyFacts.
Import Py Occ.

Lemma startswith_app (p t : pystr) : startswith p (p ++ t) = true.
Proof.
  induction p as [|a p IH]; simpl; [reflexivity|].
  now rewrite N.eqb_refl, IH.
Qed.

Lemma startswith_spec (p s : pystr) :
  startswith p s = true <-> exists t, s = p ++ t.
Proof.
  split.
  - revert s; induction p as [|a p IH]; intros s H.
    + now exists s.
    + destruct s as [|b s]; simpl in H; [discriminate|].
      apply andb_true_iff in H as [Hab Hps].
      apply N.eqb_eq in Hab; subst b.
      destruct (IH _ Hps) as [t ->]. now exists t.
  - intros [t ->]. apply startswith_app.
Qed.

Lemma startswith_length (p s : pystr) :
  startswith p s = true -> length p <= length s.
Proof.
  intros H. apply startswith_spec in H as [t ->].
  rewrite length_app. lia.
Qed.

Lemma startswith_firstn (p s : pystr) :
  startswith p s = true <-> firstn (length p) s = p.
Proof.
  split.
  - intros H. apply startswith_spec in H as [t ->].
    rewrite firstn_app, Nat.sub_diag, firstn_all. simpl. apply app_nil_r.
  - intros H. apply startswith_spec. exists (skipn (length p) s).
    rewrite <- H at 1. symmetry. apply firstn_skipn.
Qed.

(** [find] returns the leftmost occurrence. *)
Lemma find_some (sub s : pystr) (i : nat) :
  find sub s = Some i ->
  startswith sub (skipn i s) = true /\
  forall j, j < i -> startswith sub (skipn j s) = false.
Proof.
  revert i; induction s as [|c s IH]; intros i; simpl.
  - destruct (startswith sub []) eqn:E; [|discriminate].
    intros [= <-]. split; [exact E | intros j Hj; lia].
  - destruct (startswith sub (c :: s)) eqn:E.
    + intros [= <-]. split; [exact E | intros j Hj; lia].
    + destruct (find sub s) as [k|] eqn:F; simpl; [|discriminate].
      intros [= <-]. destruct (IH k eq_refl) as [H1 H2].
      split; [exact H1|].
      intros [|j] Hj; [exact E | apply H2; lia].
Qed.

Lemma find_none (sub s : pystr) (j : nat) :
  find sub s = None -> startswith sub (skipn j s) = false.
Proof.
  revert j; induction s as [|c s IH]; intros j; simpl.
  - destruct (startswith sub []) eqn:E; [discriminate|].
    intros _. now destruct j.
  - destruct (startswith sub (c :: s)) eqn:E; [discriminate|].
    destruct (find sub s) eqn:F; simpl; [discriminate|].
    intros _. destruct j; [exact E | now apply IH].
Qed.

Lemma find_bound (sub s : pystr) (i : nat) :
  sub <> [] -> find sub s = Some i -> i + length sub <= length s.
Proof.
  intros Hne H. apply find_some in H as [H _].
  apply startswith_length in H. rewrite length_skipn in H.
  destruct sub; [congruence | simpl in *; lia].
Qed.

Lemma find_occurrence (sub s : pystr) (j : nat) :
  startswith sub (skipn j s) = true -> contains sub s = true.
Proof.
  unfold contains. intros H.
  destruct (find sub s) eqn:F; [reflexivity|].
  now rewrite (find_none _ _ j F) in H.
Qed.

Lemma find_clear (sub a t : pystr) :
  clear sub a t ->
  find sub (a ++ t) = option_map (Nat.add (length a)) (find sub t).
Proof.
  induction a as [|c a IH]; intros H.
  - simpl. now destruct (find sub t).
  - assert (H0 : startswith sub ((c :: a) ++ t) = false)
      by (apply (H 0); simpl; lia).
    simpl in H0 |- *. rewrite H0.
    rewrite IH.
    + now destruct (find sub t).
    + intros j Hj. apply (H (S j)). simpl; lia.
Qed.

Lemma clear_app (sub a b t : pystr) :
  clear sub a (b ++ t) -> clear sub b t -> clear sub (a ++ b) t.
Proof.
  intros Ha Hb j Hj. rewrite <- app_assoc.
  destruct (Nat.lt_ge_cases j (length a)) as [Hlt|Hge].
  - now apply Ha.
  - rewrite skipn_app, skipn_all2 by lia. simpl.
    apply Hb. rewrite length_app in Hj. lia.
Qed.

(** An occurrence that starts inside [x] and is followed by [c] either lies
    inside [x] or runs over [c]. *)
Lemma startswith_straddle (c : N) (t x sub : pystr) :
  startswith sub (x ++ c :: t) = true ->
  startswith sub x = true \/ In c (skipn (length x) sub).
Proof.
  revert sub; induction x as [|b x IH]; intros sub H.
  - destruct sub as [|a sub]; [now left|].
    simpl in H. apply andb_true_iff in H as [Hac _].
    apply N.eqb_eq in Hac. right. simpl. now left.
  - destruct sub as [|a sub]; [now left|].
    simpl in H. apply andb_true_iff in H as [Hab H].
    destruct (IH _ H) as [Hx|Hin].
    + left. simpl. now rewrite Hab, Hx.
    + right. exact Hin.
Qed.

Lemma in_skipn {A} (x : A) (n : nat) (l : list A) :
  In x (skipn n l) -> In x l.
Proof.
  intros H. rewrite <- (firstn_skipn n l). apply in_or_app. now right.
Qed.

(** A field [a] that does not contain [sub], followed by a character that
    [sub] does not have after its first one, is clear of [sub]. *)
Lemma clear_field (sub a : pystr) (c : N) (t : pystr) :
  contains sub a = false -> ~ In c (tl sub) -> clear sub a (c :: t).
Proof.
  intros Hno Hc j Hj.
  destruct (startswith sub (skipn j (a ++ c :: t))) eqn:E; [|reflexivity].
  exfalso. rewrite skipn_app in E.
  replace (j - length a) with 0 in E by lia. simpl in E.
  apply startswith_straddle in E as [E|E].
  - apply find_occurrence in E. congruence.
  - apply Hc. assert (Hlen : length (skipn j a) = S (length a - S j))
      by (rewrite length_skipn; lia).
    rewrite Hlen in E. destruct sub as [|s0 sub]; [now destruct (length a - S j)|].
    simpl in E |- *. now apply in_skipn in E.
Qed.

Lemma clear_field_lit (sub a lit t : pystr) :
  contains sub a = false -> head_outside sub lit = true ->
  clear sub a (lit ++ t).
Proof.
  intros Hno Hh. destruct lit as [|c lit]; [discriminate|].
  simpl in Hh. apply clear_field; [exact Hno|].
  intros Hin. apply negb_true_iff in Hh.
  assert (E : existsb (N.eqb c) (tl sub) = true).
  { apply existsb_exists. exists c. split; [exact Hin | apply N.eqb_refl]. }
  congruence.
Qed.

Lemma clear_nil (sub t : pystr) : clear sub [] t.
Proof. intros j Hj. simpl in Hj. lia. Qed.

Lemma compat_sound (sub r t : pystr) :
  compat sub r = false -> startswith sub (r ++ t) = false.
Proof.
  revert sub; induction r as [|b r IH]; intros sub H.
  - now destruct sub.
  - destruct sub as [|a sub]; [discriminate|].
    simpl in H |- *. apply andb_false_iff in H as [H|H].
    + now rewrite H.
    + rewrite (IH _ H). apply andb_false_r.
Qed.

Lemma clear_literal_sound (sub r t : pystr) :
  clear_literal sub r = true -> clear sub r t.
Proof.
  unfold clear_literal. rewrite forallb_forall. intros H j Hj.
  rewrite skipn_app. replace (j - length r) with 0 by lia. simpl.
  apply compat_sound. apply negb_true_iff. apply H.
  apply in_seq. lia.
Qed.

(** A string without the first character of [sub] has no occurrence. *)
Lemma find_no_head (c : N) (sub s : pystr) :
  ~ In c s -> find (c :: sub) s = None.
Proof.
  induction s as [|b s IH]; intros H; [reflexivity|].
  simpl. destruct (c =? b)%N eqn:E.
  - apply N.eqb_eq in E. subst. exfalso. apply H. now left.
  - simpl. rewrite IH; [reflexivity|]. intros Hin. apply H. now right.
Qed.

Lemma find_at_head (sub s : pystr) :
  startswith sub s = true -> find sub s = Some 0.
Proof. intros H. destruct s; simpl in *; now rewrite H. Qed.

(** *** [split] *)

Lemma split_fuel_enough (sep : pystr) :
  sep <> [] ->
  forall n m s, length s <= n -> length s <= m ->
  split_fuel n sep s = split_fuel m sep s.
Proof.
  intros Hne. induction n as [|n IH]; intros m s Hn Hm.
  - destruct s; [|simpl in Hn; lia].
    destruct m; [reflexivity|]. simpl.
    destruct sep; [congruence | reflexivity].
  - destruct m as [|m].
    + destruct s; [|simpl in Hm; lia]. simpl.
      destruct sep; [congruence | reflexivity].
    + simpl. destruct (find sep s) as [i|] eqn:F; [|reflexivity].
      f_equal. pose proof (find_bound _ _ _ Hne F) as Hb.
      assert (0 < length sep) by (destruct sep; [congruence | simpl; lia]).
      apply IH; rewrite length_skipn; lia.
Qed.

Lemma split_fuel_S (n : nat) (sep s : pystr) :
  split_fuel (S n) sep s =
  match find sep s with
  | None => [s]
  | Some i => firstn i s :: split_fuel n sep (skipn (i + length sep) s)
  end.
Proof. reflexivity. Qed.

Lemma split_eq (sep s : pystr) :
  sep <> [] ->
  split sep s =
  match find sep s with
  | None => [s]
  | Some i => firstn i s :: split sep (skipn (i + length sep) s)
  end.
Proof.
  intros Hne. unfold split. destruct s as [|c s].
  - simpl. destruct sep; [congruence | reflexivity].
  - change (length (c :: s)) with (S (length s)). rewrite split_fuel_S.
    destruct (find sep (c :: s)) as [i|] eqn:F; [|reflexivity].
    f_equal. pose proof (find_bound _ _ _ Hne F) as Hb.
    assert (0 < length sep) by (destruct sep; [congruence | simpl; lia]).
    apply split_fuel_enough; [exact Hne | | apply Nat.le_refl].
    rewrite length_skipn. simpl length in Hb |- *. lia.
Qed.

Lemma split_head (sep s : pystr) :
  sep <> [] -> index (split sep s) 0 = Some (first_piece sep s).
Proof.
  intros Hne. rewrite split_eq by exact Hne. unfold first_piece.
  now destruct (find sep s).
Qed.

(** The second piece, when the first occurrence of [sep] ends the part [a]
    of the string. *)
Lemma split_second (sep a t : pystr) :
  sep <> [] -> clear sep a (sep ++ t) ->
  index (split sep (a ++ sep ++ t)) 1 = Some (first_piece sep t).
Proof.
  intros Hne Hc. rewrite split_eq by exact Hne.
  rewrite find_clear by exact Hc.
  assert (F : find sep (sep ++ t) = Some 0)
    by apply find_at_head, startswith_app.
  rewrite F. simpl option_map. rewrite Nat.add_0_r.
  unfold index. simpl nth_error.
  replace (skipn (length a + length sep) (a ++ sep ++ t)) with t.
  - apply (split_head _ t Hne).
  - rewrite app_assoc, skipn_app, <- length_app, Nat.sub_diag.
    rewrite skipn_all. reflexivity.
Qed.

(** A cut of [a ++ t] whose part [a] is clear keeps [a]. *)
Lemma first_piece_clear (sep a t : pystr) :
  clear sep a t -> exists y, first_piece sep (a ++ t) = a ++ y.
Proof.
  intros Hc. unfold first_piece. rewrite find_clear by exact Hc.
  destruct (find sep t) as [k|]; simpl.
  - exists (firstn k t). rewrite firstn_app.
    rewrite firstn_all2 by lia. f_equal. f_equal. lia.
  - now exists t.
Qed.

Lemma first_piece_field (sep a t : pystr) :
  clear sep a (sep ++ t) -> first_piece sep (a ++ sep ++ t) = a.
Proof.
  intros Hc. unfold first_piece. rewrite find_clear by exact Hc.
  assert (F : find sep (sep ++ t) = Some 0)
    by apply find_at_head, startswith_app.
  rewrite F. simpl. rewrite Nat.add_0_r, firstn_app, Nat.sub_diag.
  rewrite firstn_all. simpl. apply app_nil_r.
Qed.

End PyFacts.

(** ** Decimal rendering and [int] *)

Module IntFacts.
Import Py.

Lemma digits_are_digits (d : Decimal.uint) :
  Forall (fun c => is_digit c = true) (digits_of_uint d).
Proof. induction d; simpl; constructor; auto. Qed.

Lemma uint_of_digits_of_uint (d : Decimal.uint) :
  uint_of_digits (digits_of_uint d) = d.
Proof. induction d; simpl; congruence. Qed.

Lemma scan_digits_all (d : Decimal.uint) (prev : scan_state) :
  prev <> AfterUnderscore ->
  scan_digits prev (digits_of_uint d) = Some (digits_of_uint d, []).
Proof.
  revert prev; induction d; intros prev Hp; simpl;
    try (rewrite IHd by discriminate; reflexivity).
  now destruct prev.
Qed.

Lemma to_ascii_ascii (dec : N -> option N) (s : pystr) :
  Forall (fun c => (c <? 127)%N = true) s -> to_ascii dec s = Some s.
Proof.
  induction 1 as [|c s Hc _ IH]; simpl; [reflexivity|].
  now rewrite Hc, IH.
Qed.

Lemma digit_props (c : N) :
  is_digit c = true ->
  (c <? 127)%N = true /\ isspace c = false /\ c_isspace c = false /\
  c <> 43%N /\ c <> 45%N /\ c <> 80%N.
Proof.
  unfold is_digit, isspace, c_isspace. intros H.
  apply andb_true_iff in H as [H1 H2].
  apply N.leb_le in H1, H2.
  repeat split; try lia;
    repeat match goal with
           | |- (_ || _)%bool = false => apply orb_false_iff; split
           | |- (_ && _)%bool = false => apply andb_false_iff
           end;
    try (apply N.eqb_neq; lia); try (apply N.ltb_lt; lia);
    try (left; apply N.leb_gt; lia); try (right; apply N.leb_gt; lia).
Qed.

Lemma to_uint_nonnil (n : N) : N.to_uint n <> Decimal.Nil.
Proof.
  destruct n; simpl; [discriminate|].
  apply DecimalPos.Unsigned.to_uint_nonnil.
Qed.

Lemma digits_nonempty (z : Z) : digits z <> [].
Proof.
  unfold digits. pose proof (to_uint_nonnil (Z.abs_N z)) as H.
  destruct (N.to_uint (Z.abs_N z)); simpl; congruence.
Qed.

(** [int] reads a run of ASCII digits back, with or without a sign. *)
Lemma int_of_digits (dec : N -> option N) (d : Decimal.uint)
    (negative : bool) :
  d <> Decimal.Nil ->
  length (digits_of_uint d) <= max_str_digits ->
  int dec ((if negative then [45%N] else []) ++ digits_of_uint d)
  = Some (if negative then (- Z.of_N (N.of_uint d))%Z
          else Z.of_N (N.of_uint d)).
Proof.
  intros Hd Hlen. unfold int.
  pose proof (digits_are_digits d) as Hdig.
  assert (Hascii : Forall (fun c => (c <? 127)%N = true) (digits_of_uint d)).
  { eapply Forall_impl; [|exact Hdig]. intros c Hc.
    now apply digit_props in Hc. }
  pose proof (scan_digits_all d AtStart) as Hscan.
  assert (Htail :
    match scan_digits AtStart (digits_of_uint d) with
    | Some (ds, rest) =>
      match ds with
      | [] => None
      | _ :: _ =>
        if max_str_digits <? length ds then None
        else if forallb c_isspace rest then
          let n := Z.of_N (N.of_uint (uint_of_digits ds)) in
          Some (if negative then (- n)%Z else n)
        else None
      end
    | None => None
    end = Some (if negative then (- Z.of_N (N.of_uint d))%Z
                else Z.of_N (N.of_uint d))).
  { rewrite Hscan by discriminate.
    destruct (digits_of_uint d) as [|c ds] eqn:E.
    { destruct d; simpl in E; congruence. }
    destruct (max_str_digits <? length (c :: ds)) eqn:L;
      [apply Nat.ltb_lt in L; lia|].
    simpl forallb. cbv iota zeta.
    now rewrite <- E, uint_of_digits_of_uint. }
  destruct negative.
  - rewrite to_ascii_ascii by (constructor; [reflexivity | exact Hascii]).
    simpl app. simpl skip_space. cbv iota. simpl N.eqb. cbv iota.
    exact Htail.
  - rewrite to_ascii_ascii by exact Hascii.
    simpl app. destruct (digits_of_uint d) as [|c ds] eqn:E.
    { destruct d; simpl in E; congruence. }
    inversion Hdig as [|? ? Hc _]; subst.
    destruct (digit_props _ Hc) as (_ & _ & Hsp & H43 & H45 & _).
    simpl skip_space. rewrite Hsp.
    apply N.eqb_neq in H43, H45. rewrite H43, H45.
    exact Htail.
Qed.

Lemma int_of_str (dec : N -> option N) (z : Z) :
  length (digits z) <= max_str_digits ->
  int dec (str_of_int z) = Some z.
Proof.
  intros Hlen. unfold str_of_int, digits in *.
  pose proof (to_uint_nonnil (Z.abs_N z)) as Hnn.
  destruct (z <? 0)%Z eqn:Hz.
  - pose proof (int_of_digits dec _ true Hnn Hlen) as H.
    simpl app in H. rewrite H.
    rewrite DecimalN.Unsigned.of_to, N2Z.inj_abs_N.
    apply Z.ltb_lt in Hz. f_equal. lia.
  - pose proof (int_of_digits dec _ false Hnn Hlen) as H.
    simpl app in H. rewrite H.
    rewrite DecimalN.Unsigned.of_to, N2Z.inj_abs_N.
    apply Z.ltb_ge in Hz. f_equal. lia.
Qed.

Lemma str_of_int_chars (z : Z) :
  Forall (fun c => isspace c = false /\ c <> 80%N) (str_of_int z).
Proof.
  assert (H : Forall (fun c => isspace c = false /\ c <> 80%N) (digits z)).
  { unfold digits. eapply Forall_impl; [|apply digits_are_digits].
    intros c Hc. apply digit_props in Hc. tauto. }
  unfold str_of_int. destruct (z <? 0)%Z; [|exact H].
  constructor; [|exact H]. split; [reflexivity | discriminate].
Qed.

Lemma lstrip_id (s : pystr) :
  Forall (fun c => isspace c = false) s -> lstrip s = s.
Proof. destruct 1 as [|c s Hc _]; simpl; [reflexivity | now rewrite Hc]. Qed.

Lemma strip_id (s : pystr) :
  Forall (fun c => isspace c = false) s -> strip s = s.
Proof.
  intros H. unfold strip, rstrip. rewrite (lstrip_id _ H).
  rewrite lstrip_id; [apply rev_involutive|].
  apply Forall_forall. intros c Hc. apply in_rev in Hc.
  revert c Hc. now apply Forall_forall.
Qed.

End IntFacts.

(** ** The line-item parser on rendered items *)

Module ParserFacts.
Import Py Occ PyFacts IntFacts.

Ltac clear_tac :=
  repeat first
    [ apply clear_nil
    | apply clear_literal_sound; reflexivity
    | apply clear_field_lit; [assumption | reflexivity]
    | apply clear_app ].

Lemma link_sep_stop : link_sep = link_stop ++ skipn 14 link_sep.
Proof. reflexivity. Qed.

Lemma link_sep_label : link_sep = comma_space ++ link_label.
Proof. reflexivity. Qed.

Lemma quantity_sep_stop : quantity_sep = quantity_stop ++ skipn 18 quantity_sep.
Proof. reflexivity. Qed.

Lemma quantity_sep_label : quantity_sep = comma_space ++ quantity_label.
Proof. reflexivity. Qed.

(** A field [a] followed by its stop text is recovered by the two cuts. *)
Lemma between_field (label stop a : pystr) (before t1 t2 : pystr) :
  label <> [] -> stop <> [] ->
  strip a = a ->
  clear label before (label ++ a ++ stop ++ t1 ++ t2) ->
  clear label (a ++ stop) (t1 ++ t2) ->
  clear stop a (stop ++ t1 ++ t2) ->
  (forall y, clear stop a (stop ++ y)) ->
  between label stop (before ++ label ++ a ++ stop ++ t1 ++ t2) = Ok a.
Proof.
  intros Hl Hs Hstrip Hbefore Hmid _ Hstop. unfold between, index_or_raise.
  rewrite (split_second _ _ _ Hl Hbefore). unfold rbind at 1.
  replace (a ++ stop ++ t1 ++ t2) with ((a ++ stop) ++ t1 ++ t2)
    by now rewrite <- app_assoc.
  destruct (first_piece_clear _ _ _ Hmid) as [y Hy]. rewrite Hy.
  rewrite <- app_assoc.
  rewrite (split_head _ _ Hs). unfold rbind.
  rewrite (first_piece_field _ _ _ (Hstop y)). now rewrite Hstrip.
Qed.

Lemma parse_name_render (name link : pystr) (q : Z) :
  plain_name name -> parse_name (render name link q) = Ok name.
Proof.
  intros (Hstrip & Hn1 & Hn2 & Hn3 & Hn4). unfold parse_name, render.
  rewrite link_sep_stop.
  change (name_label ++ name ++ (link_stop ++ skipn 14 link_sep) ++
            link ++ quantity_sep ++ str_of_int q)
    with ([] ++ name_label ++ name ++ (link_stop ++ skipn 14 link_sep) ++
            link ++ quantity_sep ++ str_of_int q).
  rewrite <- (app_assoc link_stop).
  apply between_field; try discriminate; try exact Hstrip;
    try intros y; clear_tac.
Qed.

Lemma parse_link_render (name link : pystr) (q : Z) :
  plain_name name -> plain_link link ->
  parse_link (render name link q) = Ok link.
Proof.
  intros (_ & Hn1 & Hn2 & Hn3 & Hn4) (Hstrip & Hl1 & Hl2 & Hl3).
  unfold parse_link, render.
  rewrite link_sep_label, quantity_sep_stop.
  replace (name_label ++ name ++ (comma_space ++ link_label) ++ link ++
             (quantity_stop ++ skipn 18 quantity_sep) ++ str_of_int q)
    with ((name_label ++ name ++ comma_space) ++ link_label ++ link ++
             quantity_stop ++ skipn 18 quantity_sep ++ str_of_int q)
    by (repeat rewrite <- app_assoc; reflexivity).
  apply between_field; try discriminate; try exact Hstrip;
    try intros y; clear_tac.
Qed.

Lemma parse_quantity_render (dec : N -> option N) (name link : pystr)
    (q : Z) :
  plain_name name -> plain_link link ->
  length (digits q) <= max_str_digits ->
  parse_quantity dec (render name link q) = Ok q.
Proof.
  intros (_ & Hn1 & Hn2 & Hn3 & Hn4) (_ & Hl1 & Hl2 & Hl3) Hlen.
  unfold parse_quantity, render, index_or_raise.
  rewrite quantity_sep_label.
  replace (name_label ++ name ++ link_sep ++ link ++
             (comma_space ++ quantity_label) ++ str_of_int q)
    with ((name_label ++ name ++ link_sep ++ link ++ comma_space) ++
             quantity_label ++ str_of_int q)
    by (repeat rewrite <- app_assoc; reflexivity).
  rewrite split_second; [|discriminate|clear_tac].
  unfold rbind, first_piece.
  pose proof (str_of_int_chars q) as Hchars.
  rewrite (find_no_head 80%N (tl quantity_label)).
  - rewrite strip_id, int_of_str; [reflexivity | exact Hlen |].
    eapply Forall_impl; [|exact Hchars]. now intros c [Hc _].
  - intros Hin. rewrite Forall_forall in Hchars.
    now destruct (Hchars _ Hin) as [_ Hc].
Qed.

End ParserFacts.

(** ** C5: the parser on the fixed label format *)

(** C5 (as amended).  For every name and link that carry no white space
    around them and none of the label texts the parser cuts at, and every
    quantity of at most 4300 decimal digits, parsing the rendering of
    (name, link, quantity) in the fixed label format gives back exactly
    that triple. *)
Theorem parse_product_item_render (dec : N -> option N)
    (name link : pystr) (quantity : Z) :
  plain_name name ->
  plain_link link ->
  length (Py.digits quantity) <= Py.max_str_digits ->
  parse_product_item dec (render name link quantity)
  = Ok (name, link, quantity).
Proof.
  intros Hname Hlink Hlen. unfold parse_product_item.
  rewrite ParserFacts.parse_name_render by exact Hname.
  rewrite ParserFacts.parse_link_render by assumption.
  rewrite ParserFacts.parse_quantity_render by assumption.
  reflexivity.
Qed.

Lemma parse_product_item_render_witness :
  parse_product_item decimal_sample
    (render (u "Figure A") (u "http://warhammer.example/x") 2)
  = Ok (u "Figure A", u "http://warhammer.example/x", 2%Z).
Proof.
  apply parse_product_item_render.
  - repeat split; reflexivity.
  - repeat split; reflexivity.
  - vm_compute. lia.
Defined.

(** C5 as stated fails: a name with a trailing blank comes back without it,
    and a name that contains the link label comes back cut, with a wrong
    link. *)
Lemma parse_product_item_not_every_triple :
  parse_product_item decimal_sample
    (render (u "Figure A ") (u "http://warhammer.example/x") 2)
  = Ok (u "Figure A", u "http://warhammer.example/x", 2%Z)
  /\ parse_product_item decimal_sample
       (render (u "Set, Product Link / 商品網址: B") (u "http://warhammer.example/x") 2)
     = Ok (u "Set", u "B,", 2%Z)
  /\ ~ (forall name link quantity,
          parse_product_item decimal_sample (render name link quantity)
          = Ok (name, link, quantity)).
Proof.
  split; [vm_compute; reflexivity|]. split; [vm_compute; reflexivity|].
  intros H. specialize (H (u "Figure A ") (u "http://warhammer.example/x") 2%Z).
  vm_compute in H. discriminate H.
Qed.

(** ** The page fetcher *)

Module FetchFacts.

Ltac run_fetch :=
  unfold fetch_product_details, with_playwright, fetch_body, launch_browser,
    close_browser, query_text, bind, lift, ret, raise, modify in *;
  simpl in *.

Ltac split_result r :=
  let e := fresh "e" in
  destruct r as [[]|e].

Ltac split_query q :=
  let e := fresh "e" in
  let el := fresh "el" in
  let txt := fresh "txt" in
  destruct q as [[[[txt|e]]|]|e].

Ltac no_raise H :=
  exfalso; apply H; eexists; unfold calls, query_calls; simpl; tauto.

Ltac not_raised H :=
  destruct H as [? H]; unfold calls, query_calls in H; simpl in H;
  repeat (destruct H as [H|H]; try discriminate H); try contradiction.

Ltac branch :=
  simpl;
  try match goal with
      | |- context [orb ?a ?b] => destruct (orb a b)
      end;
  simpl.

Ltac raised :=
  left; split;
  [ unfold query_calls, void;
    first [ match goal with e : exn |- _ => exists e; simpl; tauto end
          | exists AttributeError; simpl; tauto ]
  | branch; reflexivity ].

Ltac returned :=
  right; split;
  [ let e := fresh "e" in
    let H := fresh "Hin" in
    intros [e H]; unfold query_calls, void in H; simpl in H;
    intuition discriminate
  | branch;
    (eexists; eexists;
     split; [reflexivity | split; intros; first [reflexivity | discriminate]])
  ].

(** What the fetch returns, by whether one of its calls raises. *)
Lemma fetch_cases (w : env) (url : pystr) (st : state) :
  let p := web w (fetches st) url in
  (raises p /\ fst (fetch_product_details w url st) = (None, None))
  \/ (~ raises p /\
      exists reference price,
        fst (fetch_product_details w url st) = (Some reference, Some price)
        /\ (reference_test p = Ok None -> reference = reference_not_found)
        /\ (price_test p = Ok None -> price = price_not_found)).
Proof.
  intros p. unfold fetch_product_details. fold p.
  unfold raises, calls.
  destruct p as [s l n g wr wp rt rg pt pg c]. simpl.
  unfold with_playwright, fetch_body, launch_browser, close_browser,
    query_text, bind, lift, ret, raise, modify. simpl.
  split_result s; [|raised].
  split_result l; [|raised].
  split_result n; [|raised].
  split_result g; [|raised].
  split_result wr; [|raised].
  split_result wp; [|raised].
  destruct rt as [[el0|]|e]; try raised;
    try (destruct rg as [[[[txt|e]]|]|e]; try raised);
    (destruct pt as [[el1|]|e1]; try raised;
     try (destruct pg as [[[[txt1|e1]]|]|e1]; try raised);
     (split_result c; first [raised | returned])).
Qed.

End FetchFacts.

Import FetchFacts.

(** ** C2: what the page fetcher returns *)

(** C2 (as amended).  For every URL and page the fetch returns a pair and
    never raises.  If one of its calls raises, the pair is (None, None): this
    is so for a navigation or rendering failure and for a marker that has not
    appeared when its bounded wait ends, since [wait_for_selector] then
    raises [TimeoutError].  If no call raises, both fields are returned, and
    a marker that [query_selector] no longer finds after the waits returned
    gives the sentinel string in its field. *)
Theorem fetch_product_details_sentinel_or_absent (w : env) (url : pystr)
    (st : state) :
  let p := web w (fetches st) url in
  let result := fst (fetch_product_details w url st) in
  (raises p -> result = (None, None)) /\
  (wait_reference p = Raise TimeoutError \/ wait_price p = Raise TimeoutError ->
   result = (None, None)) /\
  (~ raises p ->
   (exists reference price, result = (Some reference, Some price)) /\
   (reference_test p = Ok None -> fst result = Some reference_not_found) /\
   (price_test p = Ok None -> snd result = Some price_not_found)).
Proof.
  intros p result.
  destruct (fetch_cases w url st) as [[Hr Hres]|[Hn (r & pr & Hres & H1 & H2)]];
    fold p in Hr || fold p in Hn; fold p in Hres; fold result in Hres.
  - split; [intros _; exact Hres|].
    split; [intros _; exact Hres | intros Hn; contradiction].
  - fold p in H1, H2. split; [intros Hr; contradiction|]. split.
    + intros Hw. exfalso. apply Hn. exists TimeoutError. unfold calls.
      destruct Hw as [Hw|Hw]; rewrite <- Hw; simpl; tauto.
    + intros _. rewrite Hres. simpl. split; [now exists r, pr|].
      split; intros H; [now rewrite H1 | now rewrite H2].
Qed.

Lemma fetch_product_details_sentinel_or_absent_witness :
  fst (fetch_product_details (env_of page_timeout) (u "http://corvusbelli.com/x")
         init) = (None, None)
  /\ fst (fst (fetch_product_details (env_of (page_reference_gone "45"))
                 (u "http://corvusbelli.com/x") init))
     = Some reference_not_found.
Proof.
  split.
  - apply (proj1 (proj2 (fetch_product_details_sentinel_or_absent
                           (env_of page_timeout)
                           (u "http://corvusbelli.com/x") init))).
    left. reflexivity.
  - apply (proj2 (proj2 (fetch_product_details_sentinel_or_absent
                           (env_of (page_reference_gone "45"))
                           (u "http://corvusbelli.com/x") init))).
    + intros [e H]. simpl in H. intuition discriminate.
    + reflexivity.
Defined.

(** C2 as stated fails: on a page whose reference marker never appears the
    bounded wait ends in [TimeoutError], and the fetch returns (None, None),
    not the sentinel string, for the reference. *)
Lemma absent_marker_gives_no_sentinel :
  wait_reference page_timeout = Raise TimeoutError
  /\ reference_test page_timeout = Ok None
  /\ fst (fetch_product_details (env_of page_timeout)
            (u "http://corvusbelli.com/x") init) = (None, None)
  /\ fst (fst (fetch_product_details (env_of page_timeout)
                 (u "http://corvusbelli.com/x") init))
     <> Some reference_not_found.
Proof. repeat split; try reflexivity. discriminate. Qed.

(** ** C8: the rendering context when the fetch returns *)

Module ContextFacts.

Ltac flags Hrun Hopen :=
  cbn [playwright_running browser_open events record logging count_fetch
       fst snd];
  rewrite ?Hopen, ?Hrun.

Ltac in_calls :=
  unfold raises, calls, query_calls, void; cbn [app];
  first [ match goal with e : exn |- _ => exists e; simpl; tauto end
        | exists AttributeError; simpl; tauto ].



Ltac flag_leaf Hrun Hopen :=
  branch; flags Hrun Hopen;
  (split; [reflexivity|]);
  (split;
   [ let Hn := fresh "Hn" in
     intros Hn; first [reflexivity | exfalso; apply Hn; in_calls]
   | let Hc := fresh "Hc" in
     intros Hc; first [reflexivity | discriminate Hc] ]).

(** The flags of the rendering context after a fetch. *)
Lemma fetch_flags (w : env) (url : pystr) (st : state) :
  playwright_running st = false ->
  browser_open st = false ->
  let p := web w (fetches st) url in
  let st' := snd (fetch_product_details w url st) in
  playwright_running st' = false /\
  (~ raises p -> browser_open st' = false) /\
  (exit_closes_browser w = true -> browser_open st' = false).
Proof.
  intros Hrun Hopen p st'. unfold st', fetch_product_details. fold p.
  destruct p as [s l n g wr wp rt rg pt pg c].
  unfold with_playwright, fetch_body, launch_browser, close_browser,
    query_text, bind, lift, ret, raise, modify.
  cbn [start launch new_page goto wait_reference wait_price reference_test
       reference_get price_test price_get close].
  destruct (exit_closes_browser w);
  (split_result s; [|flag_leaf Hrun Hopen]);
  (split_result l; [|flag_leaf Hrun Hopen]);
  (split_result n; [|flag_leaf Hrun Hopen]);
  (split_result g; [|flag_leaf Hrun Hopen]);
  (split_result wr; [|flag_leaf Hrun Hopen]);
  (split_result wp; [|flag_leaf Hrun Hopen]);
  (destruct rt as [[el0|]|e]; try flag_leaf Hrun Hopen;
   try (destruct rg as [[[[txt|e]]|]|e]; try flag_leaf Hrun Hopen);
   (destruct pt as [[el1|]|e1]; try flag_leaf Hrun Hopen;
    try (destruct pg as [[[[txt1|e1]]|]|e1]; try flag_leaf Hrun Hopen);
    (split_result c; flag_leaf Hrun Hopen))).
Qed.

End ContextFacts.



(** How the context ends: [browser.close()] is reached only when no earlier
    call raised; after a raise the program leaves the browser to the exit of
    the [with] block. *)
Lemma fetch_events_on_timeout :
  events (snd (fetch_product_details (env_of page_timeout)
                 (u "http://corvusbelli.com/x") init))
  = [PlaywrightStarted; BrowserLaunched; PlaywrightStopped].
Proof. reflexivity. Qed.

Lemma fetch_events_on_success :
  events (snd (fetch_product_details (env_of (page_ok "REF123" "45"))
                 (u "http://corvusbelli.com/x") init))
  = [PlaywrightStarted; BrowserLaunched; BrowserClosed; PlaywrightStopped].
Proof. reflexivity. Qed.

(** Nothing in the program closes the browser after a raise: were
    Playwright's exit not to take it down, the browser of a fetch that timed
    out would still be open when the fetch returns, while the browser of a
    fetch that read its page would be closed all the same. *)
Lemma fetch_relies_on_the_exit :
  browser_open
    (snd (fetch_product_details (env_with false page_timeout)
            (u "http://corvusbelli.com/x") init)) = true
  /\ browser_open
       (snd (fetch_product_details (env_with false (page_ok "REF123" "45"))
               (u "http://corvusbelli.com/x") init)) = false.
Proof. split; reflexivity. Qed.

(** ** What the fetch leaves alone *)

Section Preserve.

Variable R : state -> state -> Prop.
Hypothesis R_refl : forall st, R st st.
Hypothesis R_trans : forall a b c, R a b -> R b c -> R a c.
Hypothesis R_logging : forall lv m st, R st (logging lv m st).
Hypothesis R_record : forall ev a b st, R st (record ev a b st).
Hypothesis R_count : forall st, R st (count_fetch st).

Lemma preserves_ret {A} (a : A) : preserves R (ret a).
Proof. intros st. apply R_refl. Qed.

Lemma preserves_raise {A} (e : exn) : preserves R (@raise A e).
Proof. intros st. apply R_refl. Qed.

Lemma preserves_lift {A} (r : result A) : preserves R (lift r).
Proof. intros st. apply R_refl. Qed.

Lemma preserves_modify (f : state -> state) :
  (forall st, R st (f st)) -> preserves R (modify f).
Proof. intros H st. apply H. Qed.

Lemma preserves_bind {A B} (m : M A) (k : A -> M B) :
  preserves R m -> (forall a, preserves R (k a)) -> preserves R (bind m k).
Proof.
  intros Hm Hk st. unfold bind. specialize (Hm st).
  destruct (m st) as [[a|e] st1]; simpl in *.
  - eapply R_trans; [exact Hm | apply Hk].
  - exact Hm.
Qed.

Lemma preserves_if {A} (b : bool) (m1 m2 : M A) :
  preserves R m1 -> preserves R m2 -> preserves R (if b then m1 else m2).
Proof. now destruct b. Qed.

Lemma preserves_query (test get : result (option element))
    (missing : pystr) :
  preserves R (query_text test get missing).
Proof.
  unfold query_text. apply preserves_bind; [apply preserves_lift|].
  intros [el|]; [|apply preserves_ret].
  apply preserves_bind; [apply preserves_lift|].
  intros [el'|]; [|apply preserves_raise].
  apply preserves_bind; [apply preserves_lift | intros; apply preserves_ret].
Qed.

Lemma preserves_fetch_body (url : pystr) (p : page) :
  preserves R (fetch_body url p).
Proof.
  unfold fetch_body, launch_browser, close_browser.
  repeat first
    [ apply preserves_query
    | apply preserves_ret
    | apply preserves_lift
    | apply preserves_bind; [|intros ?]
    | apply preserves_if
    | apply preserves_modify; intros ?
    | apply R_logging
    | apply R_record ].
Qed.

Lemma fetch_preserves (w : env) (url : pystr) (st : state) :
  R st (snd (fetch_product_details w url st)).
Proof.
  unfold fetch_product_details, with_playwright.
  destruct (start _) as [[]|e].
  - pose proof (preserves_fetch_body url (web w (fetches st) url)
                  (record PlaywrightStarted true (browser_open (count_fetch st))
                     (count_fetch st))) as H.
    destruct (fetch_body url _ _) as [[[reference price]|e] st1];
      simpl in *.
    + eapply R_trans; [apply R_count|].
      eapply R_trans; [apply R_record|].
      eapply R_trans; [exact H | apply R_record].
    + eapply R_trans; [apply R_count|].
      eapply R_trans; [apply R_record|].
      eapply R_trans; [exact H|].
      eapply R_trans; [apply R_record | apply R_logging].
  - simpl. eapply R_trans; [apply R_count | apply R_logging].
Qed.

End Preserve.

Module Frame.

Lemma same_refl (st : state) : same_tables st st.
Proof. repeat split. Qed.

Lemma same_trans (a b c : state) :
  same_tables a b -> same_tables b c -> same_tables a c.
Proof. unfold same_tables. intuition congruence. Qed.

Lemma same_logging (lv : level) (m : message) (st : state) :
  same_tables st (logging lv m st).
Proof. repeat split. Qed.

Lemma fetch_frame (w : env) (url : pystr) (st : state) :
  same_tables st (snd (fetch_product_details w url st)).
Proof.
  apply fetch_preserves;
    [ apply same_refl | apply same_trans | apply same_logging
    | repeat split | repeat split ].
Qed.

Lemma grows_refl (st : state) : log_grows st st.
Proof. exists []. now rewrite app_nil_r. Qed.

Lemma grows_trans (a b c : state) :
  log_grows a b -> log_grows b c -> log_grows a c.
Proof.
  intros [l1 H1] [l2 H2]. exists (l1 ++ l2).
  now rewrite H2, H1, app_assoc.
Qed.

Lemma grows_logging (lv : level) (m : message) (st : state) :
  log_grows st (logging lv m st).
Proof. now exists [(lv, m)]. Qed.

Lemma grows_same_log (st st' : state) : log st' = log st -> log_grows st st'.
Proof. intros H. exists []. now rewrite app_nil_r. Qed.

Lemma fetch_log_grows (w : env) (url : pystr) (st : state) :
  log_grows st (snd (fetch_product_details w url st)).
Proof.
  apply fetch_preserves;
    [ apply grows_refl | apply grows_trans | apply grows_logging
    | intros; now apply grows_same_log | intros; now apply grows_same_log ].
Qed.

Lemma grows_in (st st' : state) (x : log_record) :
  log_grows st st' -> In x (log st) -> In x (log st').
Proof. intros [l H] Hin. rewrite H. apply in_or_app. now left. Qed.

End Frame.

(** ** One item *)

Module ItemFacts.
Import Frame.

Lemma truthy_some (v : option pystr) :
  truthy v = true -> exists s, v = Some s /\ s <> [].
Proof.
  destruct v as [[|c s]|]; simpl; try discriminate.
  intros _. exists (c :: s). split; [reflexivity | discriminate].
Qed.

Lemma is_empty_false (s : pystr) : is_empty s = false -> s <> [].
Proof. destruct s; [discriminate | intros _; discriminate]. Qed.

(** The body of the [try]: either it raises and the accumulators are as
    before, or it appends one product row and one ledger row. *)
Lemma item_body_cases (w : env) (index : nat) (r : order_record)
    (item : pystr) (st : state) :
  match item_body w index r item st with
  | (Raise e, st') => same_tables st st'
  | (Ok _, st') =>
    exists name link quantity p,
      parse_product_item (decimal w) item = Ok (name, link, quantity) /\
      valid_fields name link quantity /\
      product_shape name link quantity p /\
      products st' = products st ++ [p] /\
      bookkeeping_data st' =
        bookkeeping_data st ++ [ledger_row r name quantity link] /\
      incorrect_entries st' = incorrect_entries st
  end.
Proof.
  unfold item_body, bind, lift, modify, raise, ret.
  destruct (parse_product_item (decimal w) item) as [[[name link] q]|e];
    [|apply same_refl].
  destruct (Py.startswith http link) eqn:Hhttp; simpl;
    [|apply same_logging].
  destruct (is_empty link) eqn:Hlink; simpl; [apply same_logging|].
  destruct (is_empty name) eqn:Hname; simpl; [apply same_logging|].
  destruct (q <=? 0)%Z eqn:Hq; simpl; [apply same_logging|].
  apply Z.leb_gt in Hq. apply is_empty_false in Hname.
  destruct (Py.contains corvusbelli_com link) eqn:Hcb.
  - pose proof (fetch_frame w link st) as Hframe.
    destruct (fetch_product_details w link st) as [[reference price] st1].
    simpl in Hframe.
    destruct (truthy reference) eqn:Href; simpl;
      [|eapply same_trans; [exact Hframe | apply same_logging]].
    destruct (truthy price) eqn:Hprice; simpl;
      [|eapply same_trans; [exact Hframe | apply same_logging]].
    apply truthy_some in Href as (ref & -> & Href).
    apply truthy_some in Hprice as (pr & -> & Hprice).
    destruct Hframe as (Hp & Hb & Hi).
    exists name, link, q, (enriched_row (Some ref) name link (Some pr) q).
    repeat split; try assumption; try congruence.
    right. split; [assumption|]. now exists ref, pr.
  - simpl.
    exists name, link, q, (direct_row name q link).
    repeat split; try assumption.
    left. now split.
Qed.

Lemma item_body_log (w : env) (index : nat) (r : order_record)
    (item : pystr) (st : state) :
  log_grows st (snd (item_body w index r item st)).
Proof.
  unfold item_body, bind, lift, modify, raise, ret.
  destruct (parse_product_item (decimal w) item) as [[[name link] q]|e];
    [|apply grows_refl].
  destruct (Py.startswith http link); simpl; [|apply grows_logging].
  destruct (is_empty link); simpl; [apply grows_logging|].
  destruct (is_empty name); simpl; [apply grows_logging|].
  destruct (q <=? 0)%Z; simpl; [apply grows_logging|].
  destruct (Py.contains corvusbelli_com link).
  - pose proof (fetch_log_grows w link st) as Hlog.
    destruct (fetch_product_details w link st) as [[reference price] st1].
    simpl in Hlog.
    destruct (truthy reference); simpl;
      [|eapply grows_trans; [exact Hlog | apply grows_logging]].
    destruct (truthy price); simpl;
      [|eapply grows_trans; [exact Hlog | apply grows_logging]].
    eapply grows_trans; [exact Hlog | now apply grows_same_log].
  - simpl. now apply grows_same_log.
Qed.

Lemma extends_nil (st : state) : extends st [] st.
Proof. unfold extends. simpl. now rewrite !app_nil_r. Qed.

Lemma extends_app (a b c : state) (vs1 vs2 : routing) :
  extends a vs1 b -> extends b vs2 c -> extends a (vs1 ++ vs2) c.
Proof.
  unfold extends, product_rows, ledger_rows, rejected_rows.
  intros (H1 & H2 & H3) (K1 & K2 & K3).
  rewrite !flat_map_app, !app_assoc.
  rewrite K1, K2, K3, H1, H2, H3. now repeat split.
Qed.

Lemma logged_grows (st st' : state) (vs : routing) :
  log_grows st st' ->
  Forall (logged (log st)) vs -> Forall (logged (log st')) vs.
Proof.
  intros Hg. apply Forall_impl. intros [[[index r] item] [e|name link q p]];
    simpl; [|trivial]. now apply grows_in.
Qed.

(** One iteration of the inner loop: a text without the name tag changes
    nothing; a candidate gets one verdict, whose rows are appended. *)
Lemma process_item_routing (w : env) (index : nat) (r : order_record)
    (item : pystr) (st : state) :
  let st' := process_item w index r item st in
  exists vs : routing,
    map fst vs =
      (if Py.contains name_tag item then [(index, r, item)] else []) /\
    Forall (sound (decimal w)) vs /\
    Forall (logged (log st')) vs /\
    extends st vs st' /\
    log_grows st st'.
Proof.
  unfold process_item.
  destruct (Py.contains name_tag item).
  - pose proof (item_body_cases w index r item st) as Hc.
    pose proof (item_body_log w index r item st) as Hl.
    destruct (item_body w index r item st) as [[[]|e] st1]; simpl in Hl.
    + destruct Hc as (name & link & q & p & Hparse & Hv & Hs & H1 & H2 & H3).
      exists [((index, r, item), Accepted name link q p)].
      split; [reflexivity|]. split; [|split; [|split]].
      * constructor; [|constructor]. simpl. auto.
      * constructor; [|constructor]. exact I.
      * unfold extends. simpl. rewrite ?app_nil_r. auto.
      * exact Hl.
    + exists [((index, r, item), Rejected e)].
      destruct Hc as (H1 & H2 & H3).
      split; [reflexivity|]. split; [|split; [|split]].
      * constructor; [|constructor]. exact I.
      * constructor; [|constructor]. simpl. apply in_or_app. right. now left.
      * unfold extends, item_handler. simpl.
        rewrite H1, H2, H3, ?app_nil_r. auto.
      * eapply grows_trans; [exact Hl|]. unfold item_handler.
        now exists [(ERROR, ErrorAtIndex index (customer r) e)].
  - exists []. simpl.
    split; [reflexivity|]. split; [constructor|]. split; [constructor|].
    split; [apply extends_nil | apply grows_refl].
Qed.

(** The inner loop over the texts of one record. *)
Lemma process_items_routing (w : env) (index : nat) (r : order_record)
    (items : list pystr) (st : state) :
  let st' := fold_left (fun st' item => process_item w index r item st')
                       items st in
  exists vs : routing,
    map fst vs = map (fun item => (index, r, item))
                     (filter (Py.contains name_tag) items) /\
    Forall (sound (decimal w)) vs /\
    Forall (logged (log st')) vs /\
    extends st vs st' /\
    log_grows st st'.
Proof.
  revert st; induction items as [|item items IH]; intros st; simpl.
  - exists []. simpl.
    split; [reflexivity|]. split; [constructor|]. split; [constructor|].
    split; [apply extends_nil | apply grows_refl].
  - destruct (process_item_routing w index r item st)
      as (vs1 & Hm1 & Hs1 & Hl1 & He1 & Hg1).
    destruct (IH (process_item w index r item st))
      as (vs2 & Hm2 & Hs2 & Hl2 & He2 & Hg2).
    exists (vs1 ++ vs2). rewrite map_app, Hm1, Hm2.
    split; [|split; [|split; [|split]]].
    + now destruct (Py.contains name_tag item).
    + apply Forall_app. now split.
    + apply Forall_app. split; [|exact Hl2].
      eapply logged_grows; [exact Hg2 | exact Hl1].
    + eapply extends_app; eassumption.
    + eapply grows_trans; eassumption.
Qed.

(** The outer loop: when it ends without raising, every candidate of the
    input has one verdict, in input order. *)
Lemma process_records_routing (w : env) (data : list order_record) :
  forall (index : nat) (st st' : state),
  process_records w index data st = (Ok tt, st') ->
  exists vs : routing,
    map fst vs = candidates_from index data /\
    Forall (sound (decimal w)) vs /\
    Forall (logged (log st')) vs /\
    extends st vs st' /\
    log_grows st st'.
Proof.
  induction data as [|r data IH]; intros index st st' H; simpl in H.
  - injection H as <-. exists []. simpl.
    split; [reflexivity|]. split; [constructor|]. split; [constructor|].
    split; [apply extends_nil | apply grows_refl].
  - unfold bind, process_record in H.
    unfold items_of in *. simpl candidates_from. unfold items_of.
    destruct (item_blob r) as [blob|]; [|discriminate H].
    unfold modify in H.
    destruct (process_items_routing w index r (Py.split newline blob) st)
      as (vs1 & Hm1 & Hs1 & Hl1 & He1 & Hg1).
    destruct (IH _ _ _ H) as (vs2 & Hm2 & Hs2 & Hl2 & He2 & Hg2).
    exists (vs1 ++ vs2). rewrite map_app, Hm1, Hm2.
    split; [reflexivity|]. split; [|split; [|split]].
    + apply Forall_app. now split.
    + apply Forall_app. split; [|exact Hl2].
      eapply logged_grows; [exact Hg2 | exact Hl1].
    + eapply extends_app; eassumption.
    + eapply grows_trans; eassumption.
Qed.

(** The loop raises only on a record without an item text. *)
Lemma process_records_total (w : env) (data : list order_record) :
  Forall (fun r => item_blob r <> NaN) data ->
  forall (index : nat) (st : state),
  exists st', process_records w index data st = (Ok tt, st').
Proof.
  induction 1 as [|r data Hr _ IH]; intros index st; simpl.
  - now exists st.
  - unfold bind, process_record.
    destruct (item_blob r) as [blob|]; [|congruence].
    unfold modify. apply IH.
Qed.

End ItemFacts.

(** ** The tables built after the loop *)

Module TableFacts.

Lemma width_uniform (n : nat) (rows : list row) :
  Forall (fun r => length r = n) rows -> rows <> [] -> width rows = n.
Proof.
  induction 1 as [|r rows Hr Hrows IH]; intros Hne; [now contradiction Hne|].
  simpl. destruct rows as [|r' rows'].
  - simpl. lia.
  - rewrite IH by discriminate. lia.
Qed.

Lemma pad_exact (n : nat) (r : row) : length r = n -> pad n r = r.
Proof.
  intros H. unfold pad. rewrite H, Nat.sub_diag. simpl. apply app_nil_r.
Qed.

Lemma map_pad_uniform (n : nat) (rows : list row) :
  Forall (fun r => length r = n) rows -> map (pad n) rows = rows.
Proof.
  induction 1 as [|r rows Hr _ IH]; simpl; [reflexivity|].
  now rewrite pad_exact, IH.
Qed.

(** A frame of rows that all have as many fields as there are columns. *)
Lemma DataFrame_uniform (n : nat) (rows : list row) :
  Forall (fun r => length r = n) rows -> DataFrame rows n = Ok rows.
Proof.
  intros H. unfold DataFrame. destruct rows as [|r rows]; [reflexivity|].
  rewrite (width_uniform n) by (assumption || discriminate).
  rewrite Nat.eqb_refl. now rewrite map_pad_uniform.
Qed.

Lemma width_bound (rows : list row) (r : row) :
  In r rows -> length r <= width rows.
Proof.
  induction rows as [|r' rows IH]; intros H; [contradiction|].
  simpl. destruct H as [<-|H]; [lia|]. specialize (IH H). lia.
Qed.

Lemma width_reached (rows : list row) :
  rows <> [] -> exists r, In r rows /\ length r = width rows.
Proof.
  induction rows as [|r rows IH]; intros Hne; [now contradiction Hne|].
  simpl. destruct rows as [|r' rows'].
  - exists r. split; [now left | simpl; lia].
  - destruct IH as (x & Hin & Hx); [discriminate|].
    simpl in Hx |- *.
    destruct (Nat.max_spec (length r)
                (Nat.max (length r') (width rows'))) as [[_ E]|[_ E]].
    + exists x. split; [now right | lia].
    + exists r. split; [now left | lia].
Qed.

(** The selection by a marker never raises on rows that hold a [str] at the
    index tested, and is the plain filter. *)
Lemma select_products (marker : pystr) (rows : list row) :
  Forall (fun p => exists s, nth_error p 2 = Some (VStr s)) rows ->
  select marker 2 rows = Ok (supplier_selection marker rows).
Proof.
  induction 1 as [|p rows [s Hs] _ IH]; [reflexivity|].
  cbn [select]. unfold field_contains, Py.index. rewrite Hs, IH.
  unfold rbind, supplier_selection. cbn [filter].
  unfold link_of_product. now rewrite Hs.
Qed.

Lemma mask_ledger (marker : pystr) (rows : list row) :
  Forall (fun p => exists s, nth_error p 5 = Some (VStr s)) rows ->
  mask_link marker rows = Ok (ledger_selection marker rows).
Proof.
  induction 1 as [|p rows [s Hs] _ IH]; [reflexivity|].
  cbn [mask_link]. unfold Py.index. rewrite Hs, IH.
  unfold rbind, ledger_selection. cbn [filter].
  unfold link_of_ledger. now rewrite Hs.
Qed.

(** *** [sort_values] *)

Lemma str_le_total (a b : pystr) :
  Py.str_le a b = false -> Py.str_le b a = true.
Proof.
  revert b; induction a as [|x a IH]; intros [|y b]; simpl; try discriminate;
    try reflexivity.
  destruct (x <? y)%N eqn:Hxy; [discriminate|].
  destruct (y <? x)%N eqn:Hyx; [reflexivity|]. apply IH.
Qed.

Lemma date_le_total (a b : row) :
  date_le a b = false -> date_le b a = true.
Proof.
  unfold date_le, key_le.
  destruct (date_key a), (date_key b); try discriminate; try reflexivity.
  apply str_le_total.
Qed.

Lemma insert_by_date_head (r : row) (l : list row) (x : row) :
  HdRel (fun a b => date_le a b = true) x l ->
  date_le x r = true ->
  HdRel (fun a b => date_le a b = true) x (insert_by_date r l).
Proof.
  intros Hl Hx. destruct l as [|h t]; simpl.
  - now constructor.
  - destruct (date_le r h); constructor; [exact Hx|].
    now inversion Hl.
Qed.

Lemma insert_by_date_sorted (r : row) (l : list row) :
  date_sorted l -> date_sorted (insert_by_date r l).
Proof.
  unfold date_sorted.
  induction 1 as [|h t Ht IH Hh]; simpl.
  - repeat constructor.
  - destruct (date_le r h) eqn:E.
    + constructor; [now constructor|]. now constructor.
    + constructor; [exact IH|].
      apply insert_by_date_head; [exact Hh|]. now apply date_le_total.
Qed.

Lemma sort_values_sorted (rows : list row) : date_sorted (sort_values rows).
Proof.
  induction rows as [|r rows IH]; simpl.
  - constructor.
  - now apply insert_by_date_sorted.
Qed.

Lemma insert_by_date_perm (r : row) (l : list row) :
  Permutation (r :: l) (insert_by_date r l).
Proof.
  induction l as [|h t IH]; simpl; [reflexivity|].
  destruct (date_le r h); [reflexivity|].
  rewrite perm_swap. now constructor.
Qed.

Lemma sort_values_perm (rows : list row) :
  Permutation rows (sort_values rows).
Proof.
  induction rows as [|r rows IH]; simpl; [constructor|].
  rewrite <- insert_by_date_perm. now constructor.
Qed.

(** *** Shapes *)

Lemma product_shape_facts (name link : pystr) (q : Z) (p : row) :
  product_shape name link q p ->
  nth_error p 2 = Some (VStr link) /\
  link_of_product p = link /\
  (length p = 3 /\ Py.contains corvusbelli_com link = false \/
   length p = 5 /\ Py.contains corvusbelli_com link = true).
Proof.
  intros [[Hc ->]|[Hc (ref & pr & _ & _ & ->)]]; unfold link_of_product;
    simpl; auto.
Qed.

Lemma routing_shapes (dec : N -> option N) (vs : routing) :
  Forall (sound dec) vs ->
  Forall product_ok (product_rows vs) /\
  Forall ledger_ok (ledger_rows vs) /\
  Forall rejected_ok (rejected_rows vs).
Proof.
  induction 1 as [|[[[index r] item] [e|name link q p]] vs Hs _ IH];
    simpl.
  - repeat constructor.
  - destruct IH as (H1 & H2 & H3). repeat split; try assumption.
    constructor; [|exact H3]. now exists r, item.
  - destruct IH as (H1 & H2 & H3). destruct Hs as (_ & _ & Hshape).
    repeat split; try assumption.
    + constructor; [|exact H1]. now exists name, link, q.
    + constructor; [|exact H2]. now exists r, name, q, link.
Qed.

Lemma extends_init (vs : routing) (st : state) :
  extends init vs st ->
  products st = product_rows vs /\
  bookkeeping_data st = ledger_rows vs /\
  incorrect_entries st = rejected_rows vs.
Proof. unfold extends. simpl. tauto. Qed.

Lemma DataFrame_ok (rows t : list row) (n : nat) :
  DataFrame rows n = Ok t ->
  t = map (pad n) rows /\ Forall (fun r => length r <= n) rows.
Proof.
  unfold DataFrame. destruct rows as [|r rows].
  - intros [= <-]. split; [reflexivity | constructor].
  - destruct (Nat.eqb (width (r :: rows)) n) eqn:E; [|discriminate].
    intros [= <-]. split; [reflexivity|].
    apply Nat.eqb_eq in E. apply Forall_forall. intros x Hx.
    rewrite <- E. now apply width_bound.
Qed.

Lemma selection_in (marker : pystr) (rows : list row) (p : row) :
  In p (supplier_selection marker rows) <->
  In p rows /\ Py.contains marker (link_of_product p) = true.
Proof. unfold supplier_selection. apply filter_In. Qed.

(** The rows selected for supplier A are enriched rows. *)
Lemma corvus_rows_width (rows : list row) :
  Forall product_ok rows ->
  Forall (fun r => length r = 5)
         (supplier_selection corvusbelli_com rows).
Proof.
  intros H. apply Forall_forall. intros p Hp.
  apply selection_in in Hp as [Hin Hc].
  rewrite Forall_forall in H. destruct (H _ Hin) as (name & link & q & Hs).
  destruct (product_shape_facts _ _ _ _ Hs) as (_ & Hl & [[_ E]|[E _]]).
  - congruence.
  - exact E.
Qed.

Lemma ledger_rows_facts (rows : list row) :
  Forall ledger_ok rows ->
  Forall (fun r => length r = 6) rows /\
  Forall (fun p => exists s, nth_error p 5 = Some (VStr s)) rows.
Proof.
  intros H. split; eapply Forall_impl; try exact H;
    intros l (r & name & q & link & ->); simpl; eauto.
Qed.

Lemma rejected_rows_width (rows : list row) :
  Forall rejected_ok rows -> Forall (fun r => length r = 4) rows.
Proof. apply Forall_impl. now intros x (r & item & ->). Qed.

Lemma products_have_link (rows : list row) :
  Forall product_ok rows ->
  Forall (fun p => exists s, nth_error p 2 = Some (VStr s)) rows.
Proof.
  apply Forall_impl. intros p (name & link & q & Hs).
  exists link. now apply product_shape_facts in Hs.
Qed.

(** What [build_tables] computes on well-shaped accumulators, up to the
    frame of supplier B. *)
Lemma build_tables_eq (st : state) :
  well_shaped st ->
  build_tables st =
  rbind (DataFrame (supplier_selection warhammer (products st)) 3)
    (fun games_workshop_df =>
     Ok {| corvus_belli := supplier_selection corvusbelli_com (products st);
           games_workshop := games_workshop_df;
           infinity_bookkeeping :=
             sort_values (ledger_selection corvusbelli (bookkeeping_data st));
           gw_bookkeeping :=
             sort_values (ledger_selection warhammer (bookkeeping_data st));
           incorrect := match incorrect_entries st with
                        | [] => None
                        | _ :: _ => Some (incorrect_entries st)
                        end |}).
Proof.
  intros (Hp & Hl & Hr). unfold build_tables.
  rewrite !select_products by now apply products_have_link.
  cbn [rbind].
  rewrite (DataFrame_uniform 5) by now apply corvus_rows_width.
  cbn [rbind].
  destruct (DataFrame (supplier_selection warhammer (products st)) 3)
    as [gw|e]; [|reflexivity].
  cbn [rbind].
  destruct (ledger_rows_facts _ Hl) as [Hl6 Hl5].
  rewrite (DataFrame_uniform 6) by exact Hl6.
  rewrite (DataFrame_uniform 4) by now apply rejected_rows_width.
  cbn [rbind]. rewrite !mask_ledger by exact Hl5. reflexivity.
Qed.

(** The tables [build_tables] returns are the selections. *)
Lemma build_tables_ok (st : state) (out : outputs) :
  well_shaped st -> build_tables st = Ok out -> tables_of st out.
Proof.
  intros Hw H. rewrite build_tables_eq in H by exact Hw.
  destruct Hw as (Hp & _ & _).
  destruct (DataFrame (supplier_selection warhammer (products st)) 3)
    as [gw|e] eqn:E; [|discriminate H].
  apply DataFrame_ok in E as [-> Hwidth]. injection H as <-.
  unfold tables_of. simpl. repeat split.
  apply map_pad_uniform. apply Forall_forall. intros p Hin.
  rewrite Forall_forall in Hwidth. specialize (Hwidth _ Hin).
  apply selection_in in Hin as [Hin _].
  rewrite Forall_forall in Hp. destruct (Hp _ Hin) as (name & link & q & Hs).
  destruct (product_shape_facts _ _ _ _ Hs) as (_ & _ & [[E _]|[E _]]); lia.
Qed.

(** [build_tables] completes when no product row carries both markers. *)
Lemma build_tables_total (st : state) :
  well_shaped st ->
  Forall (fun p => ~ both_vendors (link_of_product p)) (products st) ->
  exists out, build_tables st = Ok out.
Proof.
  intros Hw Hno. rewrite build_tables_eq by exact Hw.
  destruct Hw as (Hp & _ & _).
  rewrite (DataFrame_uniform 3); [cbn [rbind]; eauto|].
  apply Forall_forall. intros p Hin.
  apply selection_in in Hin as [Hin Hwh].
  rewrite Forall_forall in Hp, Hno.
  destruct (Hp _ Hin) as (name & link & q & Hs).
  destruct (product_shape_facts _ _ _ _ Hs) as (_ & Hl & [[E _]|[_ E]]);
    [exact E|].
  exfalso. apply (Hno _ Hin). rewrite Hl in *. now split.
Qed.

End TableFacts.

(** ** A whole run *)

Module RunFacts.
Import ItemFacts TableFacts.

Lemma run_eq (w : env) (data : list order_record) :
  run w data =
  match process_records w 0 data init with
  | (Ok _, st) => build_tables st
  | (Raise e, _) => Raise e
  end.
Proof.
  unfold run, process_csv, bind, modify. simpl.
  change {| products := []; bookkeeping_data := []; incorrect_entries := [];
            log := []; fetches := 0; playwright_running := false;
            browser_open := false; events := [] |} with init.
  now destruct (process_records w 0 data init) as [[[]|e] st].
Qed.

(** When the loop ends, the accumulators are the rows of one routing of the
    candidates. *)
Lemma loop_routing (w : env) (data : list order_record) (st : state) :
  loop w data = Some st ->
  exists vs : routing,
    map fst vs = candidates data /\
    Forall (sound (decimal w)) vs /\
    Forall (logged (log st)) vs /\
    products st = product_rows vs /\
    bookkeeping_data st = ledger_rows vs /\
    incorrect_entries st = rejected_rows vs.
Proof.
  unfold loop. intros H.
  destruct (process_records w 0 data init) as [[[]|e] st1] eqn:E;
    [|discriminate H].
  injection H as ->.
  destruct (process_records_routing w data 0 init st E)
    as (vs & Hm & Hs & Hl & He & _).
  exists vs. apply extends_init in He. tauto.
Qed.

Lemma loop_well_shaped (w : env) (data : list order_record) (st : state) :
  loop w data = Some st -> well_shaped st.
Proof.
  intros H. destruct (loop_routing w data st H)
    as (vs & _ & Hs & _ & H1 & H2 & H3).
  unfold well_shaped. rewrite H1, H2, H3.
  now apply (routing_shapes (decimal w)).
Qed.

(** A run that returned its tables ran the loop to its end, and the tables
    are the selections of its accumulators. *)
Lemma run_ok (w : env) (data : list order_record) (out : outputs) :
  run w data = Ok out ->
  exists st, loop w data = Some st /\ tables_of st out.
Proof.
  rewrite run_eq. unfold loop.
  destruct (process_records w 0 data init) as [[[]|e] st] eqn:E;
    [|discriminate].
  intros H. exists st. split; [reflexivity|].
  apply build_tables_ok; [|exact H].
  apply (loop_well_shaped w data). unfold loop. now rewrite E.
Qed.

End RunFacts.

Import ItemFacts TableFacts RunFacts.

(** ** C7: the ledgers are sorted by date *)

(** C7.  In a completed run each of the two bookkeeping ledgers holds the
    Ledger Entries whose link contains its vendor marker, in non-decreasing
    order of date: of two consecutive rows the earlier has the smaller or
    equal date (dates compare as text, a missing date comes last). *)
Theorem ledgers_sorted_by_date (w : env) (data : list order_record)
    (out : outputs) :
  run w data = Ok out ->
  exists st,
    loop w data = Some st /\
    date_sorted (infinity_bookkeeping out) /\
    date_sorted (gw_bookkeeping out) /\
    Permutation (ledger_selection corvusbelli (bookkeeping_data st))
                (infinity_bookkeeping out) /\
    Permutation (ledger_selection warhammer (bookkeeping_data st))
                (gw_bookkeeping out).
Proof.
  intros H. destruct (run_ok w data out H) as (st & Hloop & Ht).
  destruct Ht as (_ & _ & Hi & Hg & _).
  exists st. rewrite Hi, Hg.
  repeat split; auto using sort_values_sorted, sort_values_perm.
Qed.

Lemma run_orders : run shop orders = Ok orders_out.
Proof. vm_compute. reflexivity. Qed.

Lemma ledgers_sorted_by_date_witness :
  date_sorted (infinity_bookkeeping orders_out) /\
  date_sorted (gw_bookkeeping orders_out).
Proof.
  destruct (ledgers_sorted_by_date shop orders orders_out run_orders)
    as (st & _ & H1 & H2 & _).
  split; assumption.
Defined.

Example gw_ledger_of_orders :
  map (fun r => nth 2 r VNone) (gw_bookkeeping orders_out)
  = [VStr (u "Bob"); VStr (u "Ann")].
Proof. reflexivity. Qed.

(** ** C10: the link sits at index 2 of every product row *)


Lemma loop_orders :
  exists st, loop shop orders = Some st /\
             map link_of_product (products st)
             = [u "http://warhammer.example/a"; u "http://warhammer.example/t";
                u "https://store.corvusbelli.com/c"; u "httpgarbage"].
Proof. eexists. split; vm_compute; reflexivity. Qed.



(** ** C4: every candidate item is routed to one side *)

(** C4 (as amended).  When the loop has ended, every candidate Item
    Description of the input has exactly one verdict, in input order:
    rejected, which adds one Rejected Entries row with its raw text, or
    accepted, which adds one product row and one Ledger Entry carrying the
    name, link and quantity parsed from it; the three accumulators hold
    exactly these rows, so no candidate is lost and none is on both sides.
    In a completed run the supplier and ledger tables are the selections of
    the accepted rows by vendor marker, and the Rejected Entries table holds
    every rejected row. *)
Theorem candidates_routed (w : env) (data : list order_record) (st : state) :
  loop w data = Some st ->
  exists vs : routing,
    map fst vs = candidates data /\
    Forall (sound (decimal w)) vs /\
    incorrect_entries st = rejected_rows vs /\
    products st = product_rows vs /\
    bookkeeping_data st = ledger_rows vs /\
    forall out, run w data = Ok out -> tables_of st out.
Proof.
  intros Hloop.
  destruct (loop_routing w data st Hloop) as (vs & Hm & Hs & _ & H1 & H2 & H3).
  exists vs. repeat split; try assumption.
  all: destruct (run_ok w data out H) as (st' & Hloop' & Ht);
    assert (st' = st) by congruence; subst st'; apply Ht.
Qed.

Lemma candidates_routed_witness :
  exists st vs,
    loop shop orders = Some st /\
    map fst vs = candidates orders /\
    incorrect_entries st = rejected_rows vs.
Proof.
  destruct loop_orders as (st & Hloop & _).
  destruct (candidates_routed shop orders st Hloop)
    as (vs & Hm & _ & Hr & _).
  now exists st, vs.
Defined.

(** C4 as stated fails: a valid candidate whose link contains neither vendor
    marker is accepted by the loop and is in no output table. *)
Lemma unknown_vendor_item_in_no_table :
  candidates [eve]
  = [(0, eve, item_line "Paint set" "http://example.com/paint" "1")]
  /\ parse_product_item decimal_sample
       (item_line "Paint set" "http://example.com/paint" "1")
     = Ok (u "Paint set", u "http://example.com/paint", 1%Z)
  /\ run shop [eve] = Ok no_tables.
Proof. repeat split; vm_compute; reflexivity. Qed.

(** ** C3: failures are contained per item *)

Lemma parse_product_item_ok (dec : N -> option N) (item name link : pystr)
    (q : Z) :
  parse_product_item dec item = Ok (name, link, q) ->
  parse_name item = Ok name /\ parse_link item = Ok link /\
  parse_quantity dec item = Ok q.
Proof.
  unfold parse_product_item, rbind.
  destruct (parse_name item); [|discriminate].
  destruct (parse_link item); [|discriminate].
  destruct (parse_quantity dec item); [|discriminate].
  now intros [= -> -> ->].
Qed.






(** ** C6: items with an invalid quantity or link are rejected *)

Lemma invalid_not_accepted (dec : N -> option N) (item name link : pystr)
    (q : Z) :
  invalid_quantity dec item \/ invalid_link item ->
  parse_product_item dec item = Ok (name, link, q) ->
  valid_fields name link q -> False.
Proof.
  intros Hbad Hparse (Hhttp & _ & Hq).
  apply parse_product_item_ok in Hparse as (_ & Hl & Hqty).
  destruct Hbad as [[H|(q' & H & Hle)]|(l & H & Hs)].
  - congruence.
  - assert (q' = q) by congruence. lia.
  - assert (l = link) by congruence. congruence.
Qed.

Lemma in_rejected_rows (vs : routing) (index : nat) (r : order_record)
    (item : pystr) (e : exn) :
  In ((index, r, item), Rejected e) vs ->
  In (rejected_row r item) (rejected_rows vs).
Proof.
  intros H. unfold rejected_rows. apply in_flat_map.
  exists ((index, r, item), Rejected e). split; [exact H | now left].
Qed.

(** C6 (as amended).  A candidate Item Description whose quantity field is
    not a number or is a number that is not positive, or whose link does not
    start with the four characters 'http', is appended to the Rejected
    Entries with its raw text unchanged, and adds no row to the product rows
    and Ledger Entries from which the supplier and ledger tables are taken;
    when the tables are built its row is in the Rejected Entries table. *)
Theorem invalid_item_rejected (w : env) (index : nat) (r : order_record)
    (item : pystr) :
  Py.contains name_tag item = true ->
  invalid_quantity (decimal w) item \/ invalid_link item ->
  (forall st,
     let st' := process_item w index r item st in
     incorrect_entries st' = incorrect_entries st ++ [rejected_row r item] /\
     products st' = products st /\
     bookkeeping_data st' = bookkeeping_data st) /\
  (forall data out,
     run w data = Ok out ->
     In (index, r, item) (candidates data) ->
     exists rejected,
       incorrect out = Some rejected /\
       In (rejected_row r item) rejected).
Proof.
  intros Htag Hbad. split.
  - intros st. unfold process_item. rewrite Htag.
    pose proof (item_body_cases w index r item st) as Hc.
    destruct (item_body w index r item st) as [[[]|e] st1].
    + destruct Hc as (name & link & q & p & Hparse & Hv & _).
      exfalso. eapply invalid_not_accepted; eassumption.
    + destruct Hc as (H1 & H2 & H3). unfold item_handler. simpl.
      now rewrite H1, H2, H3.
  - intros data out Hrun Hin.
    destruct (run_ok w data out Hrun) as (st & Hloop & Ht).
    destruct (loop_routing w data st Hloop)
      as (vs & Hm & Hs & _ & _ & _ & H3).
    rewrite <- Hm in Hin. apply in_map_iff in Hin as ([c v] & Hc & Hin).
    simpl in Hc. subst c.
    assert (Hrej : exists e, v = Rejected e).
    { destruct v as [e|name link q p]; [now exists e|].
      rewrite Forall_forall in Hs. specialize (Hs _ Hin). simpl in Hs.
      destruct Hs as (Hparse & Hv & _).
      exfalso. eapply invalid_not_accepted; eassumption. }
    destruct Hrej as [e ->]. apply in_rejected_rows in Hin.
    rewrite <- H3 in Hin.
    destruct Ht as (_ & _ & _ & _ & Hi).
    exists (incorrect_entries st). split; [|exact Hin].
    rewrite Hi. destruct (incorrect_entries st); [contradiction|reflexivity].
Qed.

Lemma invalid_item_rejected_witness :
  exists rejected,
    incorrect orders_out = Some rejected /\
    In (rejected_row ann (item_line "Figure B" "http://corvusbelli.com/b" "-1"))
       rejected.
Proof.
  apply (invalid_item_rejected shop 0 ann
           (item_line "Figure B" "http://corvusbelli.com/b" "-1"))
    with (data := orders).
  - reflexivity.
  - left. right. exists (-1)%Z. split; [reflexivity | lia].
  - exact run_orders.
  - vm_compute. tauto.
Defined.

(** C6 as stated fails: the link 'httpwarhammer' does not start with a URL
    scheme prefix, and its item is not rejected; it is in the supplier-B
    table and in the ledger of that vendor. *)
Lemma schemeless_link_is_accepted :
  parse_product_item decimal_sample (item_line "Dice" "httpwarhammer" "6")
  = Ok (u "Dice", u "httpwarhammer", 6%Z)
  /\ has_scheme_prefix (u "httpwarhammer") = false
  /\ has_scheme_prefix (u "http://warhammer.example/t") = true
  /\ exists out,
       run shop [hal] = Ok out /\
       games_workshop out = [direct_row (u "Dice") 6 (u "httpwarhammer")] /\
       gw_bookkeeping out
       = [ledger_row hal (u "Dice") 6 (u "httpwarhammer")] /\
       incorrect out = None.
Proof.
  split; [vm_compute; reflexivity|].
  split; [reflexivity|]. split; [reflexivity|].
  eexists. split; [vm_compute; reflexivity|].
  repeat split.
Qed.

(** ** C9: the link check is a four-character prefix test *)

Lemma startswith_http (link : pystr) :
  Py.startswith http link = true <-> firstn 4 link = http.
Proof. apply (PyFacts.startswith_firstn http link). Qed.

(** C9.  For a candidate item whose three fields were extracted, the link
    check of line 71 raises its "Link does not start with http" error
    exactly when the first four characters of the link are not 'http';
    nothing after the prefix is looked at, so a link such as 'httpgarbage'
    passes the check. *)
Theorem link_check_is_http_prefix (w : env) (index : nat) (r : order_record)
    (item : pystr) (st : state) (name link : pystr) (quantity : Z) :
  parse_product_item (decimal w) item = Ok (name, link, quantity) ->
  (fst (item_body w index r item st) = Raise (ValueError LinkNotHttp)
   <-> firstn 4 link <> http) /\
  (forall rest, Py.startswith http (http ++ rest) = true).
Proof.
  intros Hparse. split; [|intros rest; apply PyFacts.startswith_app].
  unfold item_body, bind, lift, modify, raise, ret. rewrite Hparse.
  destruct (Py.startswith http link) eqn:Hhttp; simpl.
  - split.
    + destruct (is_empty link); simpl; [discriminate|].
      destruct (is_empty name); simpl; [discriminate|].
      destruct (quantity <=? 0)%Z; simpl; [discriminate|].
      destruct (Py.contains corvusbelli_com link); simpl; [|discriminate].
      destruct (fetch_product_details w link st) as [[reference price] st1].
      destruct (truthy reference); simpl; [|discriminate].
      destruct (truthy price); simpl; discriminate.
    + intros H. exfalso. apply H. now apply startswith_http.
  - split; [|reflexivity]. intros _ H. apply startswith_http in H. congruence.
Qed.

Lemma link_check_is_http_prefix_witness :
  fst (item_body shop 1 bob (item_line "Dice" "httpgarbage" "6") init)
  <> Raise (ValueError LinkNotHttp).
Proof.
  intros H.
  apply (link_check_is_http_prefix shop 1 bob
           (item_line "Dice" "httpgarbage" "6") init
           (u "Dice") (u "httpgarbage") 6%Z) in H.
  - apply H. reflexivity.
  - reflexivity.
Defined.

Example httpgarbage_is_accepted :
  fst (item_body shop 1 bob (item_line "Dice" "httpgarbage" "6") init)
  = Ok tt.
Proof. reflexivity. Qed.

(** ** C1: enrichment that did not resolve *)

(** The part of C1 the code keeps: when the fetch returns an absent (or
    empty) reference or price for an item of the reference-priced vendor, the
    item is appended to the Rejected Entries and adds no product row and no
    Ledger Entry. *)
Lemma absent_enrichment_rejected (w : env) (index : nat) (r : order_record)
    (item : pystr) (st : state) (name link : pystr) (quantity : Z)
    (reference price : option pystr) :
  Py.contains name_tag item = true ->
  parse_product_item (decimal w) item = Ok (name, link, quantity) ->
  Py.contains corvusbelli_com link = true ->
  fst (fetch_product_details w link st) = (reference, price) ->
  truthy reference = false \/ truthy price = false ->
  let st' := process_item w index r item st in
  incorrect_entries st' = incorrect_entries st ++ [rejected_row r item] /\
  products st' = products st /\
  bookkeeping_data st' = bookkeeping_data st.
Proof.
  intros Htag Hparse Hcb Hfetch Habsent. unfold process_item. rewrite Htag.
  pose proof (item_body_cases w index r item st) as Hc.
  assert (Hraise : exists e, fst (item_body w index r item st) = Raise e).
  { unfold item_body, bind, lift, modify, raise, ret. rewrite Hparse.
    destruct (Py.startswith http link); simpl; [|eauto].
    destruct (is_empty link); simpl; [eauto|].
    destruct (is_empty name); simpl; [eauto|].
    destruct (quantity <=? 0)%Z; simpl; [eauto|].
    rewrite Hcb.
    destruct (fetch_product_details w link st) as [[ref pr] st1].
    simpl in Hfetch. injection Hfetch as -> ->.
    destruct Habsent as [H|H]; rewrite H; simpl; [eauto|].
    rewrite orb_true_r. simpl. eauto. }
  destruct Hraise as [e He].
  destruct (item_body w index r item st) as [[[]|e'] st1];
    simpl in He; [discriminate|].
  destruct Hc as (H1 & H2 & H3). unfold item_handler. simpl.
  now rewrite H1, H2, H3.
Qed.

(** C1 fails on a sentinel.  The reference marker is gone when the page is
    queried, the fetch returns ("Reference not found", "45"), and the item is
    written to the supplier-A table and the ledger with the sentinel in place
    of its reference number; nothing is rejected. *)
Theorem sentinel_reference_is_accepted :
  fst (fetch_product_details (env_of (page_reference_gone "45"))
         (u "http://corvusbelli.com/d") init)
  = (Some reference_not_found, Some (u "45"))
  /\ exists out,
       run (env_of (page_reference_gone "45")) [fay] = Ok out /\
       corvus_belli out
       = [[VStr reference_not_found; VStr (u "Model D");
           VStr (u "http://corvusbelli.com/d"); VStr (u "45"); VInt 2]] /\
       map (fun l => nth 0 l VNone) (infinity_bookkeeping out)
       = [VStr (u "Model D")] /\
       incorrect out = None.
Proof.
  split; [reflexivity|].
  eexists. split; [vm_compute; reflexivity|].
  repeat split.
Qed.

(** * Further properties *)

(** ** More on strings *)

Module MoreStrings.
Import Py Occ PyFacts.

Lemma lstrip_split (s : pystr) :
  exists pre, s = pre ++ lstrip s /\ Forall (fun c => isspace c = true) pre.
Proof.
  induction s as [|c s (pre & Hs & Hpre)]; simpl.
  - now exists [].
  - destruct (isspace c) eqn:E.
    + exists (c :: pre). split; [simpl; now rewrite <- Hs | now constructor].
    + now exists [].
Qed.

Lemma lstrip_head (s t : pystr) (c : N) :
  lstrip s = c :: t -> isspace c = false.
Proof.
  induction s as [|a s IH]; simpl; [discriminate|].
  destruct (isspace a) eqn:E; [exact IH|]. now intros [= <- _].
Qed.

Lemma lstrip_fixed (s : pystr) :
  match s with [] => True | c :: _ => isspace c = false end -> lstrip s = s.
Proof. destruct s as [|c s]; simpl; [reflexivity | now intros ->]. Qed.

Lemma lstrip_idem (s : pystr) : lstrip (lstrip s) = lstrip s.
Proof.
  apply lstrip_fixed. destruct (lstrip s) as [|c t] eqn:E; [exact I|].
  now apply lstrip_head in E.
Qed.

Lemma rstrip_split (s : pystr) :
  exists post, s = rstrip s ++ post /\ Forall (fun c => isspace c = true) post.
Proof.
  unfold rstrip. destruct (lstrip_split (rev s)) as (pre & Hs & Hpre).
  exists (rev pre). split.
  - rewrite <- rev_app_distr, <- Hs. symmetry. apply rev_involutive.
  - apply Forall_forall. intros c Hc. apply in_rev in Hc.
    revert c Hc. now apply Forall_forall.
Qed.

Lemma rstrip_idem (s : pystr) : rstrip (rstrip s) = rstrip s.
Proof. unfold rstrip. now rewrite rev_involutive, lstrip_idem. Qed.

(** [strip] is idempotent: a stripped text has no white space around it. *)
Lemma strip_idem (s : pystr) : strip (strip s) = strip s.
Proof.
  unfold strip. set (t := lstrip s).
  assert (H : lstrip (rstrip t) = rstrip t).
  { apply lstrip_fixed. destruct (rstrip t) as [|c u] eqn:E; [exact I|].
    destruct (rstrip_split t) as (post & Ht & _). rewrite E in Ht.
    unfold t in Ht. simpl in Ht. now apply lstrip_head in Ht. }
  rewrite H. apply rstrip_idem.
Qed.

(** An occurrence of [b] is an occurrence of each prefix of [b]. *)
Lemma contains_prefix (a b s : pystr) :
  startswith a b = true -> contains b s = true -> contains a s = true.
Proof.
  intros Hab Hb. unfold contains in Hb.
  destruct (find b s) as [i|] eqn:F; [|discriminate].
  apply find_some in F as [F _].
  apply startswith_spec in F as [t Ht].
  apply startswith_spec in Hab as [t' ->].
  apply (find_occurrence a s i). rewrite Ht, <- app_assoc.
  apply startswith_app.
Qed.

(** [s.split(sep)] has a second piece exactly when [sep] occurs in [s]. *)
Lemma split_second_piece (sep s : pystr) :
  sep <> [] ->
  (index (split sep s) 1 = None <-> contains sep s = false).
Proof.
  intros Hne. rewrite split_eq by exact Hne. unfold contains.
  destruct (find sep s) as [i|].
  - pose proof (split_head sep (skipn (i + length sep) s) Hne) as H.
    unfold index in *.
    destruct (split sep (skipn (i + length sep) s)); simpl in *;
      [discriminate H | split; discriminate].
  - split; reflexivity.
Qed.

End MoreStrings.

(** ** More on the line-item parser *)

Module MoreParser.
Import Py Occ PyFacts IntFacts ParserFacts MoreStrings.

(** The two cuts of a field: [IndexError] exactly when the label does not
    occur; otherwise a stripped text. *)
Lemma between_cases (label stop item : pystr) :
  label <> [] -> stop <> [] ->
  (contains label item = false /\ between label stop item = Raise IndexError)
  \/ (contains label item = true /\
      exists field, between label stop item = Ok (strip field)).
Proof.
  intros Hl Hs. unfold between, index_or_raise.
  pose proof (split_second_piece label item Hl) as Hsec.
  destruct (index (split label item) 1) as [tail|].
  - right. split.
    + destruct (contains label item); [reflexivity|].
      destruct Hsec as [_ H]. now specialize (H eq_refl).
    + cbv beta iota delta [rbind].
      rewrite (split_head stop tail Hs). eauto.
  - left. split; [now apply Hsec | reflexivity].
Qed.

Lemma parse_quantity_cases (dec : N -> option N) (item : pystr) :
  (contains quantity_label item = false /\
   parse_quantity dec item = Raise IndexError)
  \/ (contains quantity_label item = true /\
      ((exists q, parse_quantity dec item = Ok q) \/
       parse_quantity dec item = Raise (ValueError InvalidLiteral))).
Proof.
  unfold parse_quantity, index_or_raise.
  assert (Hl : quantity_label <> []) by discriminate.
  pose proof (split_second_piece quantity_label item Hl) as Hsec.
  destruct (index (split quantity_label item) 1) as [tail|].
  - right. split.
    + destruct (contains quantity_label item); [reflexivity|].
      destruct Hsec as [_ H]. now specialize (H eq_refl).
    + cbv beta iota delta [rbind]. destruct (int dec (strip tail)); eauto.
  - left. split; [now apply Hsec | reflexivity].
Qed.

Lemma between_field_strip (label stop a : pystr) (before t1 t2 : pystr) :
  label <> [] -> stop <> [] ->
  clear label before (label ++ a ++ stop ++ t1 ++ t2) ->
  clear label (a ++ stop) (t1 ++ t2) ->
  (forall y, clear stop a (stop ++ y)) ->
  between label stop (before ++ label ++ a ++ stop ++ t1 ++ t2)
  = Ok (strip a).
Proof.
  intros Hl Hs Hbefore Hmid Hstop. unfold between, index_or_raise.
  rewrite (split_second _ _ _ Hl Hbefore). unfold rbind at 1.
  replace (a ++ stop ++ t1 ++ t2) with ((a ++ stop) ++ t1 ++ t2)
    by now rewrite <- app_assoc.
  destruct (first_piece_clear _ _ _ Hmid) as [y Hy]. rewrite Hy.
  rewrite <- app_assoc.
  rewrite (split_head _ _ Hs). unfold rbind.
  now rewrite (first_piece_field _ _ _ (Hstop y)).
Qed.

Lemma parse_name_render_strip (name link : pystr) (q : Z) :
  label_free_name name -> parse_name (render name link q) = Ok (strip name).
Proof.
  intros (Hn1 & Hn2 & Hn3 & Hn4). unfold parse_name, render.
  rewrite link_sep_stop.
  change (name_label ++ name ++ (link_stop ++ skipn 14 link_sep) ++
            link ++ quantity_sep ++ str_of_int q)
    with ([] ++ name_label ++ name ++ (link_stop ++ skipn 14 link_sep) ++
            link ++ quantity_sep ++ str_of_int q).
  rewrite <- (app_assoc link_stop).
  apply between_field_strip; try discriminate; try intros y; clear_tac.
Qed.

Lemma parse_link_render_strip (name link : pystr) (q : Z) :
  label_free_name name -> label_free_link link ->
  parse_link (render name link q) = Ok (strip link).
Proof.
  intros (Hn1 & Hn2 & Hn3 & Hn4) (Hl1 & Hl2 & Hl3).
  unfold parse_link, render.
  rewrite link_sep_label, quantity_sep_stop.
  replace (name_label ++ name ++ (comma_space ++ link_label) ++ link ++
             (quantity_stop ++ skipn 18 quantity_sep) ++ str_of_int q)
    with ((name_label ++ name ++ comma_space) ++ link_label ++ link ++
             quantity_stop ++ skipn 18 quantity_sep ++ str_of_int q)
    by (repeat rewrite <- app_assoc; reflexivity).
  apply between_field_strip; try discriminate; try intros y; clear_tac.
Qed.

Lemma parse_quantity_render_free (dec : N -> option N) (name link : pystr)
    (q : Z) :
  label_free_name name -> label_free_link link ->
  length (digits q) <= max_str_digits ->
  parse_quantity dec (render name link q) = Ok q.
Proof.
  intros (Hn1 & Hn2 & Hn3 & Hn4) (Hl1 & Hl2 & Hl3) Hlen.
  unfold parse_quantity, render, index_or_raise.
  rewrite quantity_sep_label.
  replace (name_label ++ name ++ link_sep ++ link ++
             (comma_space ++ quantity_label) ++ str_of_int q)
    with ((name_label ++ name ++ link_sep ++ link ++ comma_space) ++
             quantity_label ++ str_of_int q)
    by (repeat rewrite <- app_assoc; reflexivity).
  rewrite split_second; [|discriminate|clear_tac].
  unfold rbind, first_piece.
  pose proof (str_of_int_chars q) as Hchars.
  rewrite (find_no_head 80%N (tl quantity_label)).
  - rewrite strip_id, int_of_str; [reflexivity | exact Hlen |].
    eapply Forall_impl; [|exact Hchars]. now intros c [Hc _].
  - intros Hin. rewrite Forall_forall in Hchars.
    now destruct (Hchars _ Hin) as [_ Hc].
Qed.

End MoreParser.

Import MoreStrings MoreParser.




(** X2.  The parser raises [IndexError] exactly when one of the three
    labels does not occur in the item text; its only other exception is the
    [ValueError] of [int] on the quantity text. *)
Theorem parse_product_item_errors (dec : N -> option N) (item : pystr) :
  (Py.contains name_label item = false \/
   Py.contains link_label item = false \/
   Py.contains quantity_label item = false
   <-> parse_product_item dec item = Raise IndexError) /\
  (forall e, parse_product_item dec item = Raise e ->
             e = IndexError \/ e = ValueError InvalidLiteral).
Proof.
  unfold parse_product_item, parse_name, parse_link, rbind.
  destruct (between_cases name_label link_stop item)
    as [[Hn ->]|[Hn [name ->]]]; try discriminate.
  { split; [|intros e [= <-]; now left].
    split; [reflexivity | now left]. }
  destruct (between_cases link_label quantity_stop item)
    as [[Hl ->]|[Hl [link ->]]]; try discriminate.
  { split; [|intros e [= <-]; now left].
    split; [reflexivity | right; now left]. }
  destruct (parse_quantity_cases dec item)
    as [[Hq ->]|[Hq [[q ->]| ->]]].
  - split; [|intros e [= <-]; now left].
    split; [reflexivity | right; now right].
  - split; [|discriminate].
    split; [intros [H|[H|H]]; congruence | discriminate].
  - split; [|intros e [= <-]; now right].
    split; [intros [H|[H|H]]; congruence | discriminate].
Qed.

(** X3.  The name and the link the parser returns have no white space
    around them. *)
Theorem parsed_fields_are_stripped (dec : N -> option N) (item : pystr)
    (name link : pystr) (quantity : Z) :
  parse_product_item dec item = Ok (name, link, quantity) ->
  Py.strip name = name /\ Py.strip link = link.
Proof.
  intros H. apply parse_product_item_ok in H as (Hn & Hl & _).
  unfold parse_name in Hn. unfold parse_link in Hl.
  destruct (between_cases name_label link_stop item)
    as [[_ E]|[_ [f E]]]; try discriminate; rewrite E in Hn; [discriminate|].
  destruct (between_cases link_label quantity_stop item)
    as [[_ E']|[_ [f' E']]]; try discriminate; rewrite E' in Hl;
    [discriminate|].
  injection Hn as <-. injection Hl as <-.
  split; apply strip_idem.
Qed.

Lemma parsed_fields_are_stripped_witness :
  Py.strip (u "Figure A") = u "Figure A".
Proof.
  apply (parsed_fields_are_stripped decimal_sample
           (render (u "  Figure A ") (u "http://warhammer.example/x") 2)
           (u "Figure A") (u "http://warhammer.example/x") 2%Z).
  vm_compute. reflexivity.
Defined.

(** X4.  For a name and a link that contain none of the label texts, with
    any white space around them, and a quantity of at most 4300 digits, the
    parser returns the name and the link without the white space around
    them, and the quantity. *)
Theorem parse_render_strips (dec : N -> option N) (name link : pystr)
    (quantity : Z) :
  label_free_name name ->
  label_free_link link ->
  length (Py.digits quantity) <= Py.max_str_digits ->
  parse_product_item dec (render name link quantity)
  = Ok (Py.strip name, Py.strip link, quantity).
Proof.
  intros Hname Hlink Hlen. unfold parse_product_item.
  rewrite parse_name_render_strip by exact Hname.
  rewrite parse_link_render_strip by assumption.
  rewrite parse_quantity_render_free by assumption.
  reflexivity.
Qed.

Lemma parse_render_strips_witness :
  parse_product_item decimal_sample
    (render (u "  Figure A ") (u " http://warhammer.example/x") 2)
  = Ok (u "Figure A", u "http://warhammer.example/x", 2%Z).
Proof.
  apply (parse_render_strips decimal_sample (u "  Figure A ")
           (u " http://warhammer.example/x") 2).
  - repeat split; reflexivity.
  - repeat split; reflexivity.
  - vm_compute. lia.
Defined.

(** ** More on the page fetcher *)

Module MoreFetch.
Import FetchFacts MoreStrings.

Ltac failed :=
  branch; left; eexists;
  first
    [ exists (@nil log_record);
      split; [reflexivity|];
      split; [reflexivity | simpl; lia]
    | eexists (cons _ nil);
      split; [reflexivity|];
      split; [simpl; rewrite <- app_assoc; reflexivity | simpl; lia] ].

Ltac succeeded :=
  right; eexists; eexists;
  split; [branch; reflexivity|];
  split; [first [apply strip_idem | reflexivity]|];
  split; [first [apply strip_idem | reflexivity]|];
  branch; reflexivity.

(** Each fetch ends in one of two ways.  The record of a successful read
    (lines 41 to 44) is already written when [browser.close()] raises. *)
Lemma fetch_outcome (w : env) (url : pystr) (st : state) :
  let res := fetch_product_details w url st in
  (exists e earlier,
     fst res = (None, None) /\
     log (snd res) = log st ++ earlier ++ [(ERROR, FetchException url e)] /\
     length earlier <= 1)
  \/ (exists reference price,
        fst res = (Some reference, Some price) /\
        Py.strip reference = reference /\
        Py.strip price = price /\
        log (snd res) =
          log st ++
          [if Py.str_eq reference reference_not_found
              || Py.str_eq price price_not_found
           then (WARNING, FetchNotFound url)
           else (INFO, FetchSucceeded url reference price)]).
Proof.
  intros res. unfold res, fetch_product_details.
  destruct (web w (fetches st) url) as [s l n g wr wp rt rg pt pg c].
  unfold with_playwright, fetch_body, launch_browser, close_browser,
    query_text, bind, lift, ret, raise, modify. simpl.
  split_result s; [|failed].
  split_result l; [|failed].
  split_result n; [|failed].
  split_result g; [|failed].
  split_result wr; [|failed].
  split_result wp; [|failed].
  destruct rt as [[el0|]|e]; try failed;
    try (destruct rg as [[[[txt|e]]|]|e]; try failed);
    (destruct pt as [[el1|]|e1]; try failed;
     try (destruct pg as [[[[txt1|e1]]|]|e1]; try failed);
     (split_result c; first [failed | succeeded])).
Qed.

End MoreFetch.

(** X5.  The last log record of a fetch tells how it ended: an ERROR with
    the exception when it returns (None, None), a WARNING when a returned
    field is a sentinel, an INFO with both values otherwise.  A fetch that
    returns values writes that one record only; a failing fetch writes at
    most one record before its ERROR. *)
Theorem fetch_log_tells_result (w : env) (url : pystr) (st : state) :
  exists earlier entry,
    log (snd (fetch_product_details w url st))
    = log st ++ earlier ++ [entry] /\
    length earlier <= 1 /\
    match fst (fetch_product_details w url st) with
    | (Some reference, Some price) =>
        earlier = [] /\
        entry = if Py.str_eq reference reference_not_found
                   || Py.str_eq price price_not_found
                then (WARNING, FetchNotFound url)
                else (INFO, FetchSucceeded url reference price)
    | _ => exists e, entry = (ERROR, FetchException url e)
    end.
Proof.
  destruct (MoreFetch.fetch_outcome w url st)
    as [(e & earlier & Hres & Hlog & Hlen)|(r & p & Hres & _ & _ & Hlog)];
    rewrite Hres, Hlog.
  - exists earlier, (ERROR, FetchException url e).
    repeat split; [exact Hlen | now exists e].
  - eexists [], _. repeat split. simpl. lia.
Qed.

(** X6.  The texts the fetcher returns have no white space around them. *)
Theorem fetched_texts_are_stripped (w : env) (url : pystr) (st : state)
    (reference price : pystr) :
  fst (fetch_product_details w url st) = (Some reference, Some price) ->
  Py.strip reference = reference /\ Py.strip price = price.
Proof.
  intros H. destruct (MoreFetch.fetch_outcome w url st)
    as [(e & earlier & Hres & _)|(r & p & Hres & Hr & Hp & _)];
    rewrite Hres in H; [discriminate|].
  injection H as <- <-. now split.
Qed.

Lemma fetched_texts_are_stripped_witness :
  Py.strip (u "REF123") = u "REF123".
Proof.
  apply (fetched_texts_are_stripped (env_of (page_ok " REF123 " "45 "))
           (u "http://corvusbelli.com/x") init (u "REF123") (u "45")).
  reflexivity.
Defined.

(** ** More on the loop: fetches and the rendering context *)

Module MoreLoop.
Import Frame ItemFacts.

#[local] Arguments Py.startswith : simpl never.
#[local] Arguments Py.contains : simpl never.
#[local] Arguments is_empty : simpl never.
#[local] Arguments Z.leb : simpl never.

Lemma fetch_counts (w : env) (url : pystr) (st : state) :
  fetches (snd (fetch_product_details w url st)) = S (fetches st).
Proof.
  unfold fetch_product_details, with_playwright.
  destruct (start _) as [[]|e]; [|reflexivity].
  pose proof (preserves_fetch_body
                (fun a b => fetches b = fetches a)
                (fun _ => eq_refl)
                (fun a b c H1 H2 => eq_trans H2 H1)
                (fun _ _ _ => eq_refl)
                (fun _ _ _ _ => eq_refl)
                url (web w (fetches st) url)
                (record PlaywrightStarted true (browser_open (count_fetch st))
                   (count_fetch st))) as H.
  destruct (fetch_body url _ _) as [[[reference price]|e] st1];
    simpl in *; exact H.
Qed.

Lemma fetch_no_browser (w : env) (url : pystr) (st : state) :
  contexts_end w ->
  no_browser st -> no_browser (snd (fetch_product_details w url st)).
Proof.
  intros Hend [Hopen Hrun].
  destruct (ContextFacts.fetch_flags w url st Hrun Hopen) as (H1 & H2 & H3).
  split; [|exact H1].
  destruct Hend as [Hexit|Hcalm]; [now apply H3 | now apply H2].
Qed.

(** One iteration of the inner loop calls the fetcher once when the item
    needs enrichment and not at all otherwise. *)
Lemma process_item_fetches (w : env) (index : nat) (r : order_record)
    (item : pystr) (st : state) :
  fetches (process_item w index r item st)
  = fetches st + (if needs_enrichment (decimal w) item then 1 else 0).
Proof.
  unfold process_item, needs_enrichment.
  destruct (Py.contains name_tag item); simpl; [|lia].
  unfold item_body, bind, lift, modify, raise, ret.
  destruct (parse_product_item (decimal w) item) as [[[name link] q]|e];
    simpl; [|lia].
  destruct (Py.startswith http link); simpl; [|lia].
  destruct (is_empty link); simpl; [lia|].
  destruct (is_empty name); simpl; [lia|].
  destruct (q <=? 0)%Z; simpl; [lia|].
  destruct (Py.contains corvusbelli_com link); simpl; [|lia].
  pose proof (fetch_counts w link st) as Hf.
  destruct (fetch_product_details w link st) as [[reference price] st1].
  simpl in Hf.
  destruct (truthy reference); simpl; [|lia].
  destruct (truthy price); simpl; lia.
Qed.

Lemma process_item_no_browser (w : env) (index : nat) (r : order_record)
    (item : pystr) (st : state) :
  contexts_end w ->
  no_browser st -> no_browser (process_item w index r item st).
Proof.
  intros Hend Hst. unfold process_item.
  destruct (Py.contains name_tag item); [|exact Hst].
  unfold item_body, bind, lift, modify, raise, ret.
  destruct (parse_product_item (decimal w) item) as [[[name link] q]|e];
    simpl; [|exact Hst].
  destruct (Py.startswith http link); simpl; [|exact Hst].
  destruct (is_empty link); simpl; [exact Hst|].
  destruct (is_empty name); simpl; [exact Hst|].
  destruct (q <=? 0)%Z; simpl; [exact Hst|].
  destruct (Py.contains corvusbelli_com link); simpl; [|exact Hst].
  pose proof (fetch_no_browser w link st Hend Hst) as Hf.
  destruct (fetch_product_details w link st) as [[reference price] st1].
  simpl in Hf.
  destruct (truthy reference); simpl; [|exact Hf].
  destruct (truthy price); simpl; exact Hf.
Qed.

Lemma count_tagged (dec : N -> option N) (index : nat) (r : order_record)
    (items : list pystr) :
  length (filter (fun c : candidate => needs_enrichment dec (snd c))
            (map (fun item => (index, r, item))
                 (filter (Py.contains name_tag) items)))
  = length (filter (needs_enrichment dec) items).
Proof.
  induction items as [|item items IH]; simpl; [reflexivity|].
  unfold needs_enrichment at 2.
  destruct (Py.contains name_tag item) eqn:E; simpl.
  - unfold needs_enrichment at 1. rewrite E. simpl.
    destruct (match parse_product_item dec item with
              | Ok _ => _ | Raise _ => _ end); simpl; now rewrite IH.
  - exact IH.
Qed.

Lemma process_items_fetches (w : env) (index : nat) (r : order_record)
    (items : list pystr) (st : state) :
  fetches (fold_left (fun st' item => process_item w index r item st')
                     items st)
  = fetches st + length (filter (needs_enrichment (decimal w)) items).
Proof.
  revert st; induction items as [|item items IH]; intros st; simpl; [lia|].
  rewrite IH, process_item_fetches.
  destruct (needs_enrichment (decimal w) item); simpl; lia.
Qed.

Lemma process_items_no_browser (w : env) (index : nat) (r : order_record)
    (items : list pystr) (st : state) :
  contexts_end w ->
  no_browser st ->
  no_browser (fold_left (fun st' item => process_item w index r item st')
                        items st).
Proof.
  intros Hend.
  revert st; induction items as [|item items IH]; intros st H; simpl;
    [exact H|].
  apply IH. now apply process_item_no_browser.
Qed.

Lemma process_records_fetches (w : env) (data : list order_record) :
  forall (index : nat) (st st' : state),
  process_records w index data st = (Ok tt, st') ->
  fetches st'
  = fetches st +
    length (filter (fun c : candidate => needs_enrichment (decimal w) (snd c))
              (candidates_from index data)).
Proof.
  induction data as [|r data IH]; intros index st st' H; simpl in H.
  - injection H as <-. simpl. lia.
  - unfold bind, process_record in H. simpl candidates_from.
    unfold items_of. destruct (item_blob r) as [blob|]; [|discriminate H].
    unfold modify in H. rewrite (IH _ _ _ H).
    rewrite process_items_fetches, filter_app, length_app, count_tagged.
    symmetry. apply Nat.add_assoc.
Qed.

Lemma process_records_no_browser (w : env) (data : list order_record) :
  contexts_end w ->
  forall (index : nat) (st : state),
  no_browser st -> no_browser (snd (process_records w index data st)).
Proof.
  intros Hend.
  induction data as [|r data IH]; intros index st H; simpl; [exact H|].
  unfold bind, process_record.
  destruct (item_blob r) as [blob|]; [|exact H].
  unfold modify.
  pose proof (IH (S index) _ (process_items_no_browser w index r
                                (Py.split newline blob) st Hend H)) as H'.
  destruct (process_records w (S index) data _) as [[[]|e] st1]; exact H'.
Qed.

End MoreLoop.

(** X7.  The page fetcher is called once for each candidate item that
    passed the checks of lines 66 to 77 and whose link contains
    'corvusbelli.com', and for no other: when the loop has ended, the number
    of fetches is the number of such candidates. *)
Theorem fetches_are_the_enriched_candidates (w : env)
    (data : list order_record) (st : state) :
  loop w data = Some st ->
  fetches st
  = length (filter (fun c : candidate =>
                      needs_enrichment (decimal w) (snd c))
              (candidates data)).
Proof.
  unfold loop. intros H.
  destruct (process_records w 0 data init) as [[[]|e] st1] eqn:E;
    [|discriminate H].
  injection H as <-.
  now rewrite (MoreLoop.process_records_fetches w data 0 init st1 E).
Qed.

Lemma fetches_are_the_enriched_candidates_witness :
  exists st, loop shop orders = Some st /\ fetches st = 1.
Proof.
  destruct loop_orders as (st & Hloop & _). exists st.
  split; [exact Hloop|].
  now rewrite (fetches_are_the_enriched_candidates shop orders st Hloop).
Defined.

(** X8.  Let Playwright's exit take down a browser that is still open, or
    let no call of any fetch raise (each fetch then closes its browser
    itself).  Then the loop and the building of the tables, started with no
    rendering context, end with none, whether they complete or raise: no
    fetch of the run leaves a browser open or Playwright running. *)
Theorem run_leaves_no_browser (w : env) (data : list order_record)
    (st : state) :
  contexts_end w ->
  no_browser st -> no_browser (snd (process_csv w data st)).
Proof.
  intros Hend [Hopen Hrun]. unfold process_csv, bind, modify.
  match goal with
  | |- context [process_records w 0 data ?s] =>
      pose proof (MoreLoop.process_records_no_browser w data Hend 0 s) as H
  end.
  destruct (process_records w 0 data _) as [[[]|e] st1]; simpl in *;
    apply H; now split.
Qed.

Lemma run_leaves_no_browser_witness :
  no_browser (snd (process_csv shop [blank; fay] init))
  /\ no_browser (snd (process_csv (env_with false (page_ok "REF123" "45"))
                        [fay; blank] init)).
Proof.
  split.
  - apply (run_leaves_no_browser shop [blank; fay] init).
    + left. reflexivity.
    + split; reflexivity.
  - apply (run_leaves_no_browser (env_with false (page_ok "REF123" "45"))
             [fay; blank] init).
    + right. intros n url [e H]. simpl in H. intuition discriminate.
    + split; reflexivity.
Defined.

(** ** More on the tables *)

Module MoreTables.
Import ItemFacts TableFacts RunFacts MoreStrings.

Lemma in_product_rows (vs : routing) (p : row) :
  In p (product_rows vs) ->
  exists c name link q, In (c, Accepted name link q p) vs.
Proof.
  unfold product_rows. intros H. apply in_flat_map in H as ([c v] & Hin & Hp).
  destruct v as [e|name link q p']; simpl in Hp; [contradiction|].
  destruct Hp as [<-|[]]. now exists c, name, link, q.
Qed.

Lemma in_ledger_rows (vs : routing) (index : nat) (r : order_record)
    (item name link : pystr) (q : Z) (p : row) :
  In ((index, r, item), Accepted name link q p) vs ->
  In (ledger_row r name q link) (ledger_rows vs).
Proof.
  intros H. unfold ledger_rows. apply in_flat_map.
  exists ((index, r, item), Accepted name link q p). split; [exact H|].
  now left.
Qed.

(** A completed run: its frame of supplier B was built, so the rows selected
    for it have three fields. *)
Lemma run_ok_narrow (w : env) (data : list order_record) (out : outputs) :
  run w data = Ok out ->
  exists st,
    loop w data = Some st /\ tables_of st out /\
    Forall (fun p => length p <= 3) (games_workshop out).
Proof.
  intros Hrun. destruct (run_ok w data out Hrun) as (st & Hloop & Ht).
  exists st. split; [exact Hloop|]. split; [exact Ht|].
  pose proof (loop_well_shaped w data st Hloop) as Hw.
  rewrite run_eq in Hrun. unfold loop in Hloop.
  destruct (process_records w 0 data init) as [[[]|e] st1];
    [|discriminate Hloop].
  injection Hloop as ->.
  rewrite build_tables_eq in Hrun by exact Hw.
  destruct (DataFrame (supplier_selection warhammer (products st)) 3)
    as [gw|e] eqn:E; [|discriminate Hrun].
  apply DataFrame_ok in E as [_ Hwidth].
  destruct Ht as (_ & -> & _). exact Hwidth.
Qed.

(** The failure modes of the two phases. *)
Lemma process_records_raise (w : env) (data : list order_record) :
  forall (index : nat) (st st' : state) (e : exn),
  process_records w index data st = (Raise e, st') ->
  e = AttributeError /\ Exists (fun r => item_blob r = NaN) data.
Proof.
  induction data as [|r data IH]; intros index st st' e H; simpl in H;
    [discriminate H|].
  unfold bind, process_record in H.
  destruct (item_blob r) as [blob|] eqn:E.
  - unfold modify in H. destruct (IH _ _ _ _ H) as [He Hex].
    split; [exact He | now right].
  - unfold raise in H. injection H as <- _. split; [reflexivity | now left].
Qed.

Lemma process_records_nan (w : env) (data : list order_record) :
  Exists (fun r => item_blob r = NaN) data ->
  forall (index : nat) (st : state),
  exists st', process_records w index data st = (Raise AttributeError, st').
Proof.
  induction data as [|r data IH]; intros Hex index st;
    [inversion Hex|].
  simpl. unfold bind, process_record.
  destruct (item_blob r) as [blob|] eqn:E.
  - unfold modify. inversion Hex as [? ? H|? ? H]; subst; [congruence|].
    destruct (IH H (S index)
                (fold_left (fun st' item => process_item w index r item st')
                           (Py.split newline blob) st)) as [st' ->].
    now exists st'.
  - unfold raise. now exists st.
Qed.

Lemma build_tables_raise (st : state) (e : exn) :
  well_shaped st -> build_tables st = Raise e ->
  e = ValueError ColumnsMismatch /\
  Exists (fun p => both_vendors (link_of_product p)) (products st).
Proof.
  intros Hw H. pose proof Hw as (Hp & _ & _).
  split.
  - rewrite build_tables_eq in H by exact Hw.
    unfold DataFrame in H.
    destruct (supplier_selection warhammer (products st)); [discriminate H|].
    destruct (Nat.eqb _ 3); [discriminate H|]. simpl in H. congruence.
  - destruct (Forall_Exists_dec
                (fun p => ~ both_vendors (link_of_product p))
                (fun p =>
                   match Py.contains corvusbelli_com (link_of_product p)
                           as b1,
                         Py.contains warhammer (link_of_product p) as b2
                         return {~ (b1 = true /\ b2 = true)}
                                + {~ ~ (b1 = true /\ b2 = true)}
                   with
                   | true, true => right (fun f => f (conj eq_refl eq_refl))
                   | false, _ =>
                       left (fun h => Bool.diff_false_true (proj1 h))
                   | _, false =>
                       left (fun h => Bool.diff_false_true (proj2 h))
                   end)
                (products st)) as [Hall|Hex].
    + destruct (build_tables_total st Hw Hall) as [out Hout]. congruence.
    + apply Exists_exists in Hex as (p & Hin & Hnn).
      apply Exists_exists. exists p. split; [exact Hin|].
      unfold both_vendors in *.
      destruct (Py.contains corvusbelli_com (link_of_product p)),
               (Py.contains warhammer (link_of_product p));
        try (now split); exfalso; apply Hnn; intros [H1 H2]; discriminate.
Qed.

Lemma supplier_selection_cons (m : pystr) (p : row) (rows : list row) :
  supplier_selection m (p :: rows)
  = if Py.contains m (link_of_product p)
    then p :: supplier_selection m rows
    else supplier_selection m rows.
Proof. reflexivity. Qed.

Lemma ledger_selection_cons (m : pystr) (r : order_record)
    (name link : pystr) (q : Z) (rows : list row) :
  ledger_selection m (ledger_row r name q link :: rows)
  = if Py.contains m link
    then ledger_row r name q link :: ledger_selection m rows
    else ledger_selection m rows.
Proof. reflexivity. Qed.

(** Product rows and Ledger Entries are appended side by side: a marker
    selects as many of the one as of the other, and a weaker marker selects
    at least as many. *)
Lemma selections_side_by_side (dec : N -> option N) (m1 m2 : pystr)
    (vs : routing) :
  Forall (sound dec) vs ->
  (forall link, Py.contains m1 link = true -> Py.contains m2 link = true) ->
  length (supplier_selection m1 (product_rows vs))
  <= length (ledger_selection m2 (ledger_rows vs)) /\
  length (supplier_selection m1 (product_rows vs))
  = length (ledger_selection m1 (ledger_rows vs)).
Proof.
  intros Hs Hm.
  induction Hs as [|[[[index r] item] [e|name link q p]] vs Hv _ IH].
  - split; reflexivity.
  - exact IH.
  - destruct Hv as (_ & _ & Hshape).
    apply product_shape_facts in Hshape as (_ & Hl & _).
    change (product_rows (((index, r, item), Accepted name link q p) :: vs))
      with (p :: product_rows vs).
    change (ledger_rows (((index, r, item), Accepted name link q p) :: vs))
      with (ledger_row r name q link :: ledger_rows vs).
    rewrite supplier_selection_cons, !ledger_selection_cons, Hl.
    destruct IH as [IH1 IH2].
    destruct (Py.contains m1 link) eqn:E1.
    + rewrite (Hm _ E1). simpl length. split; lia.
    + destruct (Py.contains m2 link); simpl length; split; lia.
Qed.

End MoreTables.

Import MoreTables.

(** X9.  In a completed run every row of the supplier-B table is a direct
    row [name, quantity, link] of an item with a non-empty name, a positive
    quantity and a link that starts with 'http' and contains 'warhammer';
    every row of the supplier-A table is an enriched row with a non-empty
    reference and price, a non-empty name, a positive quantity and a link
    that starts with 'http' and contains 'corvusbelli.com'. *)
Theorem supplier_tables_hold_valid_rows (w : env)
    (data : list order_record) (out : outputs) :
  run w data = Ok out ->
  Forall (fun p => exists name link quantity,
                     p = direct_row name quantity link /\
                     valid_fields name link quantity /\
                     Py.contains warhammer link = true)
         (games_workshop out) /\
  Forall (fun p => exists reference name link price quantity,
                     p = enriched_row (Some reference) name link
                                      (Some price) quantity /\
                     reference <> [] /\ price <> [] /\
                     valid_fields name link quantity /\
                     Py.contains corvusbelli_com link = true)
         (corvus_belli out).
Proof.
  intros Hrun.
  destruct (run_ok_narrow w data out Hrun) as (st & Hloop & Ht & Hnarrow).
  destruct (loop_routing w data st Hloop)
    as (vs & _ & Hs & _ & H1 & _ & _).
  destruct Ht as (Hc & Hg & _).
  rewrite Forall_forall in Hs.
  split; apply Forall_forall; intros p Hin.
  - rewrite Forall_forall in Hnarrow. specialize (Hnarrow _ Hin).
    rewrite Hg in Hin. apply selection_in in Hin as [Hin Hwh].
    rewrite H1 in Hin.
    apply in_product_rows in Hin as ([[index r] item] & name & link & q & Hv).
    destruct (Hs _ Hv) as (_ & Hvalid & Hshape).
    pose proof (product_shape_facts _ _ _ _ Hshape) as (_ & Hl & _).
    rewrite Hl in Hwh.
    destruct Hshape as [[_ ->]|[_ (ref & pr & _ & _ & ->)]].
    + now exists name, link, q.
    + simpl in Hnarrow. lia.
  - rewrite Hc in Hin. apply selection_in in Hin as [Hin Hcb].
    rewrite H1 in Hin.
    apply in_product_rows in Hin as ([[index r] item] & name & link & q & Hv).
    destruct (Hs _ Hv) as (_ & Hvalid & Hshape).
    pose proof (product_shape_facts _ _ _ _ Hshape) as (_ & Hl & _).
    rewrite Hl in Hcb.
    destruct Hshape as [[Hno ->]|[_ (ref & pr & Hr & Hp & ->)]].
    + congruence.
    + now exists ref, name, link, pr, q.
Qed.

Lemma supplier_tables_hold_valid_rows_witness :
  Forall (fun p => exists name link quantity,
                     p = direct_row name quantity link /\
                     valid_fields name link quantity /\
                     Py.contains warhammer link = true)
         (games_workshop orders_out).
Proof.
  now apply (supplier_tables_hold_valid_rows shop orders orders_out run_orders).
Defined.

(** X10.  In a completed run every row of a supplier table has its Ledger
    Entry in the ledger of the same vendor, with the same name, quantity and
    link; supplier B and ledger B have the same number of rows, and ledger A
    has at least as many rows as supplier A (it also takes links that contain
    'corvusbelli' without '.com'). *)
Theorem supplier_rows_have_ledger_entries (w : env)
    (data : list order_record) (out : outputs) :
  run w data = Ok out ->
  (forall name quantity link,
     In (direct_row name quantity link) (games_workshop out) ->
     exists r, In (ledger_row r name quantity link) (gw_bookkeeping out)) /\
  (forall reference name link price quantity,
     In (enriched_row reference name link price quantity)
        (corvus_belli out) ->
     exists r,
       In (ledger_row r name quantity link) (infinity_bookkeeping out)) /\
  length (games_workshop out) = length (gw_bookkeeping out) /\
  length (corvus_belli out) <= length (infinity_bookkeeping out).
Proof.
  intros Hrun.
  destruct (run_ok w data out Hrun) as (st & Hloop & Ht).
  destruct (loop_routing w data st Hloop)
    as (vs & _ & Hs & _ & H1 & H2 & _).
  destruct Ht as (Hc & Hg & Hi & Hgb & _).
  assert (Hsizes :
    length (games_workshop out) = length (gw_bookkeeping out) /\
    length (corvus_belli out) <= length (infinity_bookkeeping out)).
  { rewrite Hc, Hg, Hi, Hgb, H1, H2.
    rewrite <- !(Permutation_length (sort_values_perm _)).
    split.
    - now apply (selections_side_by_side (decimal w) warhammer warhammer).
    - apply (selections_side_by_side (decimal w)); [exact Hs|].
      intros link. now apply contains_prefix. }
  rewrite Forall_forall in Hs.
  split; [|split; [|exact Hsizes]].
  - intros name q link Hin. rewrite Hg in Hin.
    apply selection_in in Hin as [Hin Hwh]. rewrite H1 in Hin.
    apply in_product_rows in Hin as ([[index r] item] & n & l & q' & Hv).
    destruct (Hs _ Hv) as (_ & _ & Hshape).
    assert (E : n = name /\ l = link /\ q' = q).
    { destruct Hshape as [[_ E]|[_ (ref & pr & _ & _ & E)]];
        [|discriminate E].
      injection E as -> -> ->. auto. }
    destruct E as (-> & -> & ->).
    exists r. rewrite Hgb.
    apply (Permutation_in _ (sort_values_perm _)).
    unfold ledger_selection. apply filter_In. split.
    + rewrite H2. eapply in_ledger_rows; exact Hv.
    + exact Hwh.
  - intros ref name link price q Hin. rewrite Hc in Hin.
    apply selection_in in Hin as [Hin Hcb]. rewrite H1 in Hin.
    apply in_product_rows in Hin as ([[index r] item] & n & l & q' & Hv).
    destruct (Hs _ Hv) as (_ & _ & Hshape).
    assert (E : n = name /\ l = link /\ q' = q).
    { destruct Hshape as [[_ E]|[_ (ref' & pr & _ & _ & E)]];
        [discriminate E|].
      injection E as _ -> -> _ ->. auto. }
    destruct E as (-> & -> & ->).
    exists r. rewrite Hi.
    apply (Permutation_in _ (sort_values_perm _)).
    unfold ledger_selection. apply filter_In. split.
    + rewrite H2. eapply in_ledger_rows; exact Hv.
    + apply (contains_prefix corvusbelli corvusbelli_com); [reflexivity|].
      exact Hcb.
Qed.

Lemma supplier_rows_have_ledger_entries_witness :
  exists r,
    In (ledger_row r (u "Tank") 1 (u "http://warhammer.example/t"))
       (gw_bookkeeping orders_out).
Proof.
  apply (supplier_rows_have_ledger_entries shop orders orders_out run_orders).
  vm_compute. tauto.
Defined.

(** X11.  Up to the building of the tables (lines 61 to 114) a run can
    fail in two ways only.  It raises [AttributeError] exactly when the item
    cell of some record is not a text (an empty cell, read as NaN);
    otherwise it can only raise the [ValueError] of a frame whose rows do not
    fit its columns, and then some candidate item has a link that contains
    both 'corvusbelli.com' and 'warhammer'.  The export that follows is not
    covered. *)
Theorem run_failure_modes (w : env) (data : list order_record) :
  (run w data = Raise AttributeError
   <-> Exists (fun r => forall blob, item_blob r <> Text blob) data) /\
  (forall e, run w data = Raise e ->
             e = AttributeError \/ e = ValueError ColumnsMismatch) /\
  (run w data = Raise (ValueError ColumnsMismatch) ->
   exists index r item link,
     In (index, r, item) (candidates data) /\
     parse_link item = Ok link /\ both_vendors link).
Proof.
  assert (Hiff : Exists (fun r => forall blob, item_blob r <> Text blob) data
                 <-> Exists (fun r => item_blob r = NaN) data).
  { split; apply Exists_impl; intros r H.
    - destruct (item_blob r) as [b|]; [now contradiction (H b) | reflexivity].
    - intros blob. rewrite H. discriminate. }
  rewrite Hiff. clear Hiff.
  rewrite run_eq.
  destruct (process_records w 0 data init) as [[[]|e0] st] eqn:E.
  - assert (Hloop : loop w data = Some st) by (unfold loop; now rewrite E).
    pose proof (loop_well_shaped w data st Hloop) as Hw.
    assert (Hno : ~ Exists (fun r => item_blob r = NaN) data).
    { intros Hex. destruct (process_records_nan w data Hex 0 init) as [st' H].
      congruence. }
    split; [|split].
    + split; [|intros H; contradiction].
      intros H. apply build_tables_raise in H as [H _]; [discriminate|exact Hw].
    + intros e H. right. now apply build_tables_raise in H as [H _].
    + intros H. apply build_tables_raise in H as [_ Hex]; [|exact Hw].
      destruct (loop_routing w data st Hloop)
        as (vs & Hm & Hs & _ & H1 & _ & _).
      apply Exists_exists in Hex as (p & Hin & Hboth).
      rewrite H1 in Hin.
      apply in_product_rows in Hin as ([[index r] item] & n & l & q & Hv).
      rewrite Forall_forall in Hs.
      destruct (Hs _ Hv) as (Hparse & _ & Hshape).
      apply parse_product_item_ok in Hparse as (_ & Hlink & _).
      apply product_shape_facts in Hshape as (_ & Hl & _).
      rewrite Hl in Hboth.
      exists index, r, item, l. split; [|now split].
      rewrite <- Hm. apply in_map_iff.
      now exists ((index, r, item), Accepted n l q p).
  - destruct (process_records_raise w data 0 init st e0 E) as [-> Hex].
    split; [|split].
    + split; [intros _; exact Hex | reflexivity].
    + intros e [= <-]. now left.
    + discriminate.
Qed.

(** X12.  When every record has an item text and no line carries the name
    tag, this includes the empty input, the run completes, its four tables
    are empty and no incorrect-entries file is written. *)
Theorem untagged_input_gives_empty_tables (w : env)
    (data : list order_record) :
  Forall (fun r => item_blob r <> NaN) data ->
  candidates data = [] ->
  run w data = Ok no_tables.
Proof.
  intros Htext Hnone.
  destruct (process_records_total w data Htext 0 init) as [st Hst].
  assert (Hloop : loop w data = Some st) by (unfold loop; now rewrite Hst).
  destruct (loop_routing w data st Hloop)
    as (vs & Hm & _ & _ & H1 & H2 & H3).
  rewrite Hnone in Hm. apply map_eq_nil in Hm. subst vs.
  simpl in H1, H2, H3.
  pose proof (loop_well_shaped w data st Hloop) as Hw.
  rewrite run_eq, Hst, build_tables_eq by exact Hw.
  now rewrite H1, H2, H3.
Qed.

Lemma untagged_input_gives_empty_tables_witness :
  run shop [{| customer := Text (u "Gus"); phone := NaN;
               submission_date := NaN;
               item_blob := Text (u "no items today") |}]
  = Ok no_tables.
Proof.
  apply untagged_input_gives_empty_tables.
  - repeat constructor. discriminate.
  - reflexivity.
Defined.

(** ** The report files *)

Module DiskFacts.

Lemma str_eq_refl (a : pystr) : Py.str_eq a a = true.
Proof. induction a as [|x a IH]; simpl; [reflexivity|]. now rewrite N.eqb_refl. Qed.

Lemma str_eq_eq (a b : pystr) : Py.str_eq a b = true -> a = b.
Proof.
  revert b; induction a as [|x a IH]; intros [|y b] H; simpl in H;
    try discriminate; [reflexivity|].
  apply andb_true_iff in H as [Hxy H]. apply N.eqb_eq in Hxy.
  now rewrite Hxy, (IH _ H).
Qed.

Lemma is_dir_here (d : pystr) (ds : list pystr) (fs : list (pystr * list row)) :
  is_dir d {| dirs := d :: ds; files := fs |} = true.
Proof. unfold is_dir. simpl. now rewrite str_eq_refl. Qed.

Lemma ensure_dir_ok (w : env) (d : pystr) (k k' : disk) :
  ensure_dir w d k = Ok k' ->
  files k' = files k /\
  path_exists d k' = true /\
  (forall d', is_dir d' k = true -> is_dir d' k' = true) /\
  (is_file d k = false -> is_dir d k' = true) /\
  (path_exists d k = true -> k' = k).
Proof.
  unfold ensure_dir, makedirs.
  destruct (path_exists d k) eqn:E.
  - intros [= <-]. repeat split; auto.
    intros Hf. unfold path_exists in E. now rewrite Hf, orb_false_r in E.
  - destruct (is_empty d); [discriminate|].
    destruct (makedirs_error w d); [discriminate|].
    intros [= <-]. split; [reflexivity|].
    split; [unfold path_exists; now rewrite is_dir_here|].
    split; [|split; [intros _; apply is_dir_here | discriminate]].
    intros d' H. unfold is_dir in *. simpl. rewrite H. apply orb_true_r.
Qed.

Lemma ensure_dir_raise (w : env) (d : pystr) (k : disk) (e : exn) :
  ensure_dir w d k = Raise e <->
  path_exists d k = false /\
  ((d = [] /\ e = FileNotFoundError) \/
   (d <> [] /\ makedirs_error w d = Some e)).
Proof.
  unfold ensure_dir, makedirs.
  destruct (path_exists d k).
  - split; [discriminate | intros [H _]; discriminate H].
  - destruct d as [|c d]; simpl.
    + split.
      * intros [= <-]. split; [reflexivity|]. now left.
      * intros [_ [[_ ->]|[H _]]]; [reflexivity | now contradiction H].
    + destruct (makedirs_error w (c :: d)) as [e'|].
      * split.
        -- intros [= <-]. split; [reflexivity|]. right. now split.
        -- intros [_ [[H _]|[_ [= ->]]]]; [discriminate H | reflexivity].
      * split; [discriminate|].
        intros [_ [[H _]|[_ H]]]; discriminate H.
Qed.

Lemma is_file_files (p : pystr) (k k' : disk) :
  files k' = files k -> is_file p k' = is_file p k.
Proof. unfold is_file. now intros ->. Qed.

End DiskFacts.

Import DiskFacts.

(** X13.  [ensure_dir] raises exactly when the path does not exist and
    [os.makedirs] raises for it, as it always does for the empty name.  When
    it returns, the path exists, as a directory unless a file had the name,
    in which case nothing was made; no directory is removed and no file is
    touched; a path that exists is left as it is, so that a second call
    returns and changes nothing. *)
Theorem ensure_dir_makes_the_directory (w : env) (d : pystr) (k : disk) :
  (forall e,
     ensure_dir w d k = Raise e <->
     path_exists d k = false /\
     ((d = [] /\ e = FileNotFoundError) \/
      (d <> [] /\ makedirs_error w d = Some e))) /\
  (path_exists d k = true -> ensure_dir w d k = Ok k) /\
  (forall k',
     ensure_dir w d k = Ok k' ->
     path_exists d k' = true /\
     (is_file d k = false -> is_dir d k' = true) /\
     (is_file d k = true -> k' = k) /\
     (forall d', is_dir d' k = true -> is_dir d' k' = true) /\
     files k' = files k /\
     ensure_dir w d k' = Ok k').
Proof.
  split; [intros e; apply ensure_dir_raise|].
  split; [intros H; unfold ensure_dir; now rewrite H|].
  intros k' H.
  destruct (ensure_dir_ok w d k k' H) as (Hf & Hex & Hkeep & Hmake & Hsame).
  split; [exact Hex|]. split; [exact Hmake|].
  split; [|split; [exact Hkeep|split; [exact Hf|]]].
  - intros Hfile. apply Hsame. unfold path_exists. rewrite Hfile.
    apply orb_true_r.
  - unfold ensure_dir. now rewrite Hex.
Qed.

Module ExportFacts.

Lemma read_here (p : pystr) (rows : list row)
    (fs : list (pystr * list row)) (ds : list pystr) :
  read_file p {| dirs := ds; files := (p, rows) :: fs |} = Some rows.
Proof. unfold read_file. simpl. now rewrite str_eq_refl. Qed.

Lemma read_files (p : pystr) (k k' : disk) :
  files k' = files k -> read_file p k' = read_file p k.
Proof. unfold read_file. now intros ->. Qed.

(** The directories ensured one after the other. *)
Lemma ensure_all_ok (w : env) (ds : list pystr) :
  forall k k0 : disk,
  write_all (map (ensure_dir w) ds) k = Ok k0 ->
  files k0 = files k /\
  (forall d, is_dir d k = true -> is_dir d k0 = true) /\
  Forall (fun d => is_file d k = false -> is_dir d k0 = true) ds.
Proof.
  induction ds as [|d ds IH]; intros k k0 H; cbn [map write_all] in H.
  - injection H as <-. repeat split; auto.
  - unfold rbind in H. destruct (ensure_dir w d k) as [k1|e] eqn:E;
      [|discriminate H].
    destruct (ensure_dir_ok w d k k1 E) as (Hf & _ & Hkeep & Hmake & _).
    destruct (IH k1 k0 H) as (Hf' & Hkeep' & Hall).
    split; [congruence|]. split; [auto|].
    constructor; [auto|].
    eapply Forall_impl; [|exact Hall]. intros d' Hd' Hfile. apply Hd'.
    now rewrite (is_file_files d' k k1 Hf).
Qed.

Lemma ensure_all_total (w : env) (ds : list pystr) :
  Forall (fun d => d <> [] /\ makedirs_error w d = None) ds ->
  forall k : disk, exists k0, write_all (map (ensure_dir w) ds) k = Ok k0.
Proof.
  induction 1 as [|d ds [Hne Hallow] _ IH]; intros k; cbn [map write_all].
  - now exists k.
  - destruct (ensure_dir w d k) as [k1|e] eqn:E.
    + simpl. apply IH.
    + apply ensure_dir_raise in E as [_ [[H _]|[_ H]]];
        [now contradiction Hne | congruence].
Qed.

Ltac write_step H :=
  match type of H with
  | context [to_excel ?w ?d ?t ?n ?rows ?k] =>
      unfold to_excel in H at 1;
      destruct (is_dir d k); [|discriminate H];
      destruct (writer_error w (report_path d t n) rows) eqn:?;
        [discriminate H|];
      cbn [rbind write_all] in H
  end.

(** A completed export wrote its files, latest first, before the files that
    were there; the writer raised for none of them, and no directory is
    gone. *)
Lemma export_true (w : env) (today : pystr) (out : outputs) (k k' : disk) :
  export w today out k = Ok k' ->
  files k' = written today out ++ files k /\
  writes_allowed w today out /\
  (forall d, is_dir d k = true -> is_dir d k' = true) /\
  Forall (fun d => is_file d k = false -> is_dir d k' = true) directories.
Proof.
  unfold export, writes_allowed, written. intros H.
  destruct (write_all (map (ensure_dir w) directories) k) as [k0|e] eqn:E;
    [|discriminate H].
  destruct (ensure_all_ok w directories k k0 E) as (Hf & Hkeep & Hall).
  cbn [rbind] in H. rewrite <- Hf. clear E Hf.
  assert (Hdirs : forall k1, dirs k1 = dirs k0 ->
            (forall d, is_dir d k = true -> is_dir d k1 = true) /\
            Forall (fun d => is_file d k = false -> is_dir d k1 = true)
                   directories).
  { intros k1 Hd. unfold is_dir in *. rewrite Hd. split; assumption. }
  cbn [app write_all rbind] in H.
  write_step H. write_step H. write_step H. write_step H.
  destruct (incorrect out) as [rows|]; cbn [app write_all rbind] in H.
  - write_step H. injection H as <-.
    split; [reflexivity|]. split; [|now apply Hdirs].
    unfold incorrect_path. repeat constructor; cbn [fst snd]; assumption.
  - injection H as <-.
    split; [reflexivity|]. split; [|now apply Hdirs].
    unfold incorrect_path. repeat constructor; cbn [fst snd]; assumption.
Qed.

Lemma directories_named : Forall (fun d : pystr => d <> []) directories.
Proof. repeat constructor; discriminate. Qed.

Ltac write_ok Hd Hw :=
  unfold to_excel at 1;
  change (is_dir ?d {| dirs := dirs ?k; files := ?f |}) with (is_dir d k);
  rewrite Hd, Hw; cbn [rbind write_all dirs files].

Lemma export_total (w : env) (today : pystr) (out : outputs) (k : disk) :
  names_free k -> directories_allowed w -> writes_allowed w today out ->
  exists k', export w today out k = Ok k'.
Proof.
  intros Hfree Hallow Hwrite. unfold export.
  assert (Hmake : Forall (fun d => d <> [] /\ makedirs_error w d = None)
                         directories).
  { pose proof directories_named as Hn. unfold directories_allowed in Hallow.
    rewrite Forall_forall in *. intros d Hd. split; auto. }
  destruct (ensure_all_total w directories Hmake k) as [k0 E].
  rewrite E. cbn [rbind].
  destruct (ensure_all_ok w directories k k0 E) as (_ & _ & Hall).
  assert (Hd : Forall (fun d => is_dir d k0 = true) directories).
  { unfold names_free in Hfree. rewrite Forall_forall in *.
    intros d Hin. apply Hall; auto. }
  clear E Hall. unfold directories in Hd.
  inversion Hd as [|? ? H1 Hd1]; subst.
  inversion Hd1 as [|? ? H2 Hd2]; subst.
  inversion Hd2 as [|? ? H3 Hd3]; subst.
  inversion Hd3 as [|? ? H4 Hd4]; subst.
  inversion Hd4 as [|? ? H5 _]; subst.
  unfold writes_allowed, written in Hwrite.
  destruct (incorrect out) as [rows|]; cbn [app] in Hwrite.
  - inversion Hwrite as [|? ? W5 Hw1]; subst.
    inversion Hw1 as [|? ? W4 Hw2]; subst.
    inversion Hw2 as [|? ? W3 Hw3]; subst.
    inversion Hw3 as [|? ? W2 Hw4]; subst.
    inversion Hw4 as [|? ? W1 _]; subst.
    cbn [fst snd] in *. unfold incorrect_path in W5.
    cbn [app write_all].
    write_ok H1 W1. write_ok H2 W2. write_ok H4 W3. write_ok H3 W4.
    write_ok H5 W5. eauto.
  - inversion Hwrite as [|? ? W4 Hw2]; subst.
    inversion Hw2 as [|? ? W3 Hw3]; subst.
    inversion Hw3 as [|? ? W2 Hw4]; subst.
    inversion Hw4 as [|? ? W1 _]; subst.
    cbn [fst snd] in *.
    cbn [app write_all].
    write_ok H1 W1. write_ok H2 W2. write_ok H4 W3. write_ok H3 W4.
    eauto.
Qed.

(** The export raises when the writer raises for one of its files. *)
Lemma export_refused (w : env) (today : pystr) (out : outputs) (k : disk) :
  Exists (fun f => writer_error w (fst f) (snd f) <> None)
         (written today out) ->
  exists e, export w today out k = Raise e.
Proof.
  intros Hex. destruct (export w today out k) as [k'|e] eqn:E;
    [|now exists e].
  apply export_true in E as (_ & Hall & _).
  unfold writes_allowed in Hall. rewrite Forall_forall in Hall.
  apply Exists_exists in Hex as (f & Hin & Hf).
  now contradiction Hf; apply Hall.
Qed.

Ltac look :=
  repeat (cbn [find fst app];
          match goal with
          | |- context [Py.str_eq ?a ?a] => rewrite (str_eq_refl a)
          | |- context [Py.str_eq ?a ?b] => change (Py.str_eq a b) with false
          end; cbv iota).

(** What the files read after the files of an export were put before the
    files [fs]. *)
Lemma read_written (today : pystr) (out : outputs)
    (fs : list (pystr * list row)) (ds : list pystr) :
  let k' := {| dirs := ds; files := written today out ++ fs |} in
  reports_of today out k' /\
  read_file (incorrect_path today) k'
  = match incorrect out with
    | Some rows => Some rows
    | None => read_file (incorrect_path today) {| dirs := ds; files := fs |}
    end.
Proof.
  unfold reports_of, read_file, written, incorrect_path. cbn [files].
  destruct (incorrect out) as [rows|]; repeat split; look; reflexivity.
Qed.

Lemma read_other (today : pystr) (out : outputs)
    (fs : list (pystr * list row)) (ds : list pystr) (p : pystr) :
  Forall (fun q => Py.str_eq p q = false) (report_paths today) ->
  read_file p {| dirs := ds; files := written today out ++ fs |}
  = read_file p {| dirs := ds; files := fs |}.
Proof.
  unfold report_paths. intros H.
  inversion H as [|? ? H1 Hd1]; subst.
  inversion Hd1 as [|? ? H2 Hd2]; subst.
  inversion Hd2 as [|? ? H3 Hd3]; subst.
  inversion Hd3 as [|? ? H4 Hd4]; subst.
  inversion Hd4 as [|? ? H5 _]; subst.
  unfold read_file, written. cbn [files].
  destruct (incorrect out) as [rows|]; cbn [find fst app];
    rewrite ?H1, ?H2, ?H3, ?H4, ?H5; reflexivity.
Qed.

End ExportFacts.

Import ExportFacts.

(** X14.  When none of the five directory names is taken by a file, the
    system lets the directories be made and the writer raises for none of
    the files, the export completes: the five directories exist, the four
    report files of the date hold the four tables, replacing older ones; the
    incorrect-entries file holds the incorrect entries when there are some
    and is left as it was when there are none; every other file is left as
    it was.  When the writer raises for one of the files, the export raises:
    nothing catches the exception. *)
Theorem export_writes_the_reports (w : env) (today : pystr) (out : outputs)
    (k : disk) :
  (names_free k -> directories_allowed w -> writes_allowed w today out ->
   exists k',
     export w today out k = Ok k' /\
     Forall (fun d => is_dir d k' = true) directories /\
     reports_of today out k' /\
     read_file (incorrect_path today) k'
     = match incorrect out with
       | Some rows => Some rows
       | None => read_file (incorrect_path today) k
       end /\
     forall p,
       Forall (fun q => Py.str_eq p q = false) (report_paths today) ->
       read_file p k' = read_file p k) /\
  (Exists (fun f => writer_error w (fst f) (snd f) <> None)
          (written today out) ->
   exists e, export w today out k = Raise e).
Proof.
  split; [|apply export_refused].
  intros Hfree Hallow Hwrite.
  destruct (export_total w today out k Hfree Hallow Hwrite) as [k' Hk'].
  exists k'. split; [exact Hk'|].
  destruct (export_true w today out k k' Hk') as (Hfiles & _ & _ & Hdirs).
  destruct k' as [ds' fs']. simpl in Hfiles. subst fs'.
  split; [|split; [|split]].
  - unfold names_free in Hfree. rewrite Forall_forall in *.
    intros d Hin. apply Hdirs; auto.
  - apply (read_written today out (files k) ds').
  - rewrite (proj2 (read_written today out (files k) ds')).
    destruct (incorrect out); [reflexivity|]. now apply read_files.
  - intros p Hp. rewrite (read_other today out (files k) ds' p Hp).
    now apply read_files.
Qed.

Lemma export_writes_the_reports_witness :
  exists k',
    export shop (u "20240501") orders_out empty_disk = Ok k' /\
    reports_of (u "20240501") orders_out k'.
Proof.
  destruct (proj1 (export_writes_the_reports shop (u "20240501") orders_out
                     empty_disk))
    as (k' & H1 & _ & H2 & _).
  - repeat constructor.
  - repeat constructor.
  - repeat constructor.
  - now exists k'.
Defined.

(** An item name with the control character U+0007 passes every check of the
    loop and is in the supplier-B table; openpyxl raises for that table, so
    the export raises at line 123 and [process_csv] with it. *)
Example control_character_stops_the_export :
  exists out,
    run shop [ivy] = Ok out /\
    map (fun r => nth 0 r VNone) (games_workshop out) = [VStr [7%N]] /\
    export shop (u "20240501") out empty_disk = Raise IllegalCharacterError /\
    fst (process_csv_file shop (u "20240501") [ivy] (init, empty_disk))
    = false.
Proof. eexists. split; [vm_compute; reflexivity|]. repeat split. Qed.

Module MainFacts.

Lemma main_snoc (w : env) (clock : nat -> pystr)
    (listing : list (pystr * list order_record)) (file_name : pystr)
    (data : list order_record) :
  forall (n : nat) (sk : state * disk),
  main w clock n (listing ++ [(file_name, data)]) sk =
  match main w clock n listing sk with
  | (true, sk1) =>
      if endswith dot_csv file_name
      then match process_csv_file w (clock (n + csv_count listing)) data sk1
           with
           | (true, sk') => (true, sk')
           | (false, sk') => (false, sk')
           end
      else (true, sk1)
  | (false, sk1) => (false, sk1)
  end.
Proof.
  induction listing as [|[f d] listing IH]; intros n sk.
  - simpl. unfold csv_count. simpl. now rewrite Nat.add_0_r.
  - cbn [app main]. unfold csv_count. cbn [filter fst].
    destruct (endswith dot_csv f).
    + destruct (process_csv_file w (clock n) d sk) as [[|] sk'];
        [|reflexivity].
      rewrite IH. cbn [length]. unfold csv_count.
      now rewrite Nat.add_succ_r.
    + apply IH.
Qed.

End MainFacts.

(** X15.  When the program has processed its files and the last file of the
    listing is a CSV file, the four report files of that file's date hold
    the tables of that file alone, whatever the files before it wrote
    there; its incorrect-entries file holds the incorrect entries of the
    last file when it has some, and otherwise still what the files before
    it left. *)
Theorem last_file_overwrites_the_reports (w : env) (clock : nat -> pystr)
    (n : nat) (listing : list (pystr * list order_record))
    (file_name : pystr) (data : list order_record) (sk : state * disk)
    (st' : state) (k' : disk) :
  endswith dot_csv file_name = true ->
  main w clock n (listing ++ [(file_name, data)]) sk = (true, (st', k')) ->
  exists st1 k1 out,
    main w clock n listing sk = (true, (st1, k1)) /\
    process_csv w data st1 = (Ok out, st') /\
    reports_of (clock (n + csv_count listing)) out k' /\
    read_file (incorrect_path (clock (n + csv_count listing))) k'
    = match incorrect out with
      | Some rows => Some rows
      | None => read_file (incorrect_path (clock (n + csv_count listing))) k1
      end.
Proof.
  intros Hcsv H. rewrite MainFacts.main_snoc, Hcsv in H.
  destruct (main w clock n listing sk) as [[|] [st1 k1]]; [|discriminate H].
  unfold process_csv_file in H. simpl fst in H. simpl snd in H.
  destruct (process_csv w data st1) as [[out|e] st2] eqn:Ep;
    [|discriminate H].
  destruct (export w (clock (n + csv_count listing)) out k1) as [k2|e] eqn:E;
    [|discriminate H].
  injection H as <- <-.
  exists st1, k1, out. split; [reflexivity|]. split; [exact Ep|].
  destruct (export_true _ _ _ _ _ E) as [Hfiles _].
  destruct k2 as [ds fs]. simpl in Hfiles. subst fs.
  destruct (read_written (clock (n + csv_count listing)) out (files k1) ds)
    as [Hr Hi].
  split; [exact Hr|]. rewrite Hi.
  destruct (incorrect out); [reflexivity|]. now apply read_files.
Qed.

Lemma last_file_overwrites_the_reports_witness :
  exists out k', reports_of (u "20240501") out k'.
Proof.
  pose (r := main shop may_first 0 listing_sample (init, empty_disk)).
  assert (E : main shop may_first 0
                (firstn 2 listing_sample ++ [(u "tuesday.csv", [bob])])
                (init, empty_disk)
              = (true, (fst (snd r), snd (snd r))))
    by (vm_compute; reflexivity).
  destruct (last_file_overwrites_the_reports shop may_first 0
              (firstn 2 listing_sample) (u "tuesday.csv") [bob]
              (init, empty_disk) _ _ eq_refl E)
    as (st1 & k1 & out & _ & _ & Hreports & _).
  now exists out, (snd (snd r)).
Defined.

(** The run on [listing_sample]: the supplier-B report is Tuesday's, the
    incorrect-entries report is still Monday's. *)
Example reports_after_two_files :
  let k := snd (snd (main shop may_first 0 listing_sample
                       (init, empty_disk))) in
  option_map (map (fun r => nth 0 r VNone))
    (read_file (report_path GamesWorkshop_Supplier (u "20240501")
                            games_workshop_xlsx) k)
  = Some [VStr (u "Tank")]
  /\ option_map (map (fun r => nth 0 r VNone))
       (read_file (incorrect_path (u "20240501")) k)
     = Some [VStr (u "Ann")].
Proof. split; vm_compute; reflexivity. Qed.
